(** * Robotics troubleshooting advisor: staged dialogue controller

    A shallow embedding of [src/workflow.ts] (stage prompts and stage
    transitions) and of the parts of [src/index.ts] that coordinate one chat
    turn: the [AdvisorState] durable object ([getState], [handleMessage])
    and the worker's [handleChat].

    The program is TypeScript running on a JavaScript engine; what it handles
    at run time are JavaScript values ([request.json() as any],
    [(m: any) => ...]).  The embedding therefore works on a small universe of
    JavaScript values with the language's own truthiness, property access
    and [String()] conversion, and threads the durable storage, the clock and
    the calls made to collaborators through an explicit state-and-exception
    monad. *)

From Stdlib Require Import List String Ascii Bool ZArith QArith Lia Sorted.
From Stdlib Require Import DecimalString.
Import ListNotations.
Local Close Scope Q_scope.
Local Open Scope string_scope.
Local Open Scope list_scope.

(* ================================================================== *)
(** * JavaScript values *)
(* ================================================================== *)

(** A [throw] carries the [message] of the error object, which is all the
    program ever reads of it ([error.message]). *)
Inductive outcome (A : Type) : Type :=
| Ok (a : A)
| Throw (message : string).
Arguments Ok {A} a.
Arguments Throw {A} message.

Definition obind {A B} (c : outcome A) (k : A -> outcome B) : outcome B :=
  match c with
  | Ok a => k a
  | Throw m => Throw m
  end.

Declare Scope outcome_scope.
Delimit Scope outcome_scope with outcome.
Notation "'let?' x ':=' c 'in' k" := (obind c (fun x => k))
  (at level 10, x name, c at level 100, k at level 200) : outcome_scope.

#[local] Set Warnings "-register-all".

(** The values the program manipulates: everything [JSON.parse] can produce,
    [undefined], and the built-in function objects that an object literal
    inherits from [Object.prototype].  A finite number is the rational it
    denotes ([JSON.parse] never yields [NaN] or an infinity; [-0] and [0]
    are not told apart by anything the program does).  An object is the
    list of its own properties; [lookup] reads the first binding of a key. *)
Inductive value : Type :=
| VUndefined
| VNull
| VBool (b : bool)
| VNum (q : Q)
| VStr (s : string)
| VArr (items : list value)
| VObj (fields : list (string * value))
| VNative (name : string).

(** Errors raised by the language itself rather than by a collaborator. *)
Inductive engine_error : Type :=
| CannotReadProperty (key : string)      (* x.k with x null or undefined *)
| CannotDestructure                      (* const { a } = null *)
| NotAFunction (key : string)            (* x.k() with x.k not callable *)
| CannotConvertToPrimitive               (* String(o) with o.toString shadowed *)
| InvalidJSON.                           (* .json() of a body that is not JSON *)

(** What the engine does and the source does not spell out: the decimal
    rendering of numbers, [String.prototype.toLowerCase], the source text of
    a built-in function, and the wording of its own error messages. *)
Record Engine : Type := {
  Number_toString : Q -> string;
  String_toLowerCase : string -> string;
  native_toString : string -> string;
  error_message : engine_error -> string
}.

Fixpoint lookup {A} (key : string) (fields : list (string * A)) : option A :=
  match fields with
  | [] => None
  | (k, v) :: rest => if String.eqb key k then Some v else lookup key rest
  end.

(** [ToBoolean]. *)
Definition truthy (v : value) : bool :=
  match v with
  | VUndefined | VNull => false
  | VBool b => b
  | VNum q => negb (Qnum q =? 0)%Z
  | VStr s => negb (String.eqb s "")
  | VArr _ | VObj _ | VNative _ => true
  end.

(** [a || b]. *)
Definition js_or (a b : value) : value := if truthy a then a else b.

(** [a === b] where [b] is a string literal. *)
Definition strict_eq_str (a : value) (lit : string) : bool :=
  match a with
  | VStr s => String.eqb s lit
  | _ => false
  end.

(** The own properties of [Object.prototype]: every one of them is a
    function except the [__proto__] accessor, which on an object literal
    yields [Object.prototype] itself, an object without enumerable
    properties. *)
Definition Object_prototype_functions : list string :=
  [ "constructor"; "__defineGetter__"; "__defineSetter__"; "hasOwnProperty";
    "__lookupGetter__"; "__lookupSetter__"; "isPrototypeOf";
    "propertyIsEnumerable"; "toString"; "valueOf"; "toLocaleString" ].

Definition Object_prototype_get (key : string) : value :=
  if existsb (String.eqb key) Object_prototype_functions then VNative key
  else if String.eqb key "__proto__" then VObj []
  else VUndefined.

(** [o[key]] on an object literal: own properties first, then the
    prototype. *)
Definition literal_get (own : list (string * value)) (key : string) : value :=
  match lookup key own with
  | Some v => v
  | None => Object_prototype_get key
  end.

Section Engine.

Variable E : Engine.

Definition throw_engine {A} (e : engine_error) : outcome A :=
  Throw (error_message E e).

(** [v.key].  The program only reads the keys [sessionId], [userMessage],
    [assistantMessage], [nextStage], [stage], [history], [role], [content]
    and [response] this way; none of them exists on a built-in prototype, so
    a value that is not an object with that own property yields
    [undefined], and [null] and [undefined] throw. *)
Definition get_prop (v : value) (key : string) : outcome value :=
  match v with
  | VUndefined | VNull => throw_engine (CannotReadProperty key)
  | VObj fields =>
      match lookup key fields with
      | Some x => Ok x
      | None => Ok VUndefined
      end
  | _ => Ok VUndefined
  end.

(** [v.key] behind a guard that has already excluded [null] and
    [undefined] (as in [m && m.role]). *)
Definition prop (v : value) (key : string) : value :=
  match get_prop v key with
  | Ok x => x
  | Throw _ => VUndefined
  end.

(** [const { k1, k2, ... } = v]: throws on [null] and [undefined]. *)
Definition destructure (v : value) (key : string) : outcome value :=
  match v with
  | VUndefined | VNull => throw_engine CannotDestructure
  | _ => get_prop v key
  end.

(** [String(v)].  An array joins the renderings of its elements with commas,
    [null] and [undefined] elements rendering as nothing.  A plain object
    renders through [Object.prototype.toString] unless it has an own
    [toString] property; such a property of parsed data is not callable and
    the inherited [valueOf] returns the object itself, so the conversion
    throws a [TypeError]. *)
Fixpoint js_String (v : value) : outcome string :=
  match v with
  | VUndefined => Ok "undefined"
  | VNull => Ok "null"
  | VBool true => Ok "true"
  | VBool false => Ok "false"
  | VNum q => Ok (Number_toString E q)
  | VStr s => Ok s
  | VArr items =>
      (fix join (l : list value) : outcome string :=
         match l with
         | [] => Ok ""
         | x :: rest =>
             let? sx := match x with
                        | VUndefined | VNull => Ok ""
                        | _ => js_String x
                        end in
             match rest with
             | [] => Ok sx
             | _ :: _ => let? sr := join rest in Ok (sx ++ "," ++ sr)%string
             end
         end%outcome) items
  | VObj fields =>
      match lookup "toString" fields with
      | Some _ => throw_engine CannotConvertToPrimitive
      | None => Ok "[object Object]"
      end
  | VNative name => Ok (native_toString E name)
  end.

(** [JSON.parse(JSON.stringify(v))]: what is left of a value once it has
    crossed a JSON boundary.  Properties holding [undefined] or a function
    are omitted, array elements holding them become [null]. *)
Definition not_serialisable (v : value) : bool :=
  match v with
  | VUndefined | VNative _ => true
  | _ => false
  end.

Fixpoint JSON_roundtrip (v : value) : value :=
  match v with
  | VArr items =>
      VArr (map (fun x => if not_serialisable x then VNull
                          else JSON_roundtrip x) items)
  | VObj fields =>
      VObj ((fix props (l : list (string * value)) : list (string * value) :=
               match l with
               | [] => []
               | (k, x) :: rest =>
                   if not_serialisable x then props rest
                   else (k, JSON_roundtrip x) :: props rest
               end) fields)
  | VNative _ => VUndefined
  | other => other
  end.

(** What [JSON.stringify] followed by [JSON.parse] makes of an array
    element. *)
Definition JSON_element (x : value) : value :=
  if not_serialisable x then VNull else JSON_roundtrip x.

(* ================================================================== *)
(** * workflow.ts *)
(* ================================================================== *)

Inductive Stage : Type := initial | diagnostic | solution.

(** The string each member of ['initial' | 'diagnostic' | 'solution'] is. *)
Definition stage_label (s : Stage) : string :=
  match s with
  | initial => "initial"
  | diagnostic => "diagnostic"
  | solution => "solution"
  end.

Definition prompt_initial : string :=
"You are a robotics troubleshooting expert. A user is describing a robot problem.

Ask only the most essential questions you need to understand the situation. Start with basic context:
- What type of robot and what problem are they experiencing?

If the user already provided details, acknowledge them and ask follow-up questions as needed. Don't ask questions they've already answered.

Be conversational, friendly, and concise.".

Definition prompt_diagnostic : string :=
"You are a robotics troubleshooting expert analyzing a specific robot problem.

Based on what the user has told you:
- If you strongly suspect a specific cause, ask 1-2 targeted questions to confirm it
- If the issue is still unclear, ask the most relevant diagnostic question

Consider:
- Mechanical issues (misalignment, wear, binding)
- Electrical issues (power, servo failures, wiring)
- Control issues (PID tuning, sensor calibration)
- Software issues (bugs, incorrect parameters)
- And a lot more

Be efficient - don't ask unnecessary questions if you can already identify the problem.".

Definition prompt_solution : string :=
"You are a robotics troubleshooting expert. You have gathered sufficient information.

Provide a clear, structured diagnosis with BLANK LINES between each section:

**Root Cause**: What is causing the problem

**Solution Steps**: 
1. First action
2. Second action
3. Third action

**Prevention**: How to avoid this in future

**Parts/Tools**: List any components needed

IMPORTANT: Add two line breaks (NEW LINES) between each Solution step for readability. Be practical, actionable, and specific.".

(** The object literal [prompts] of [getSystemPromptForStage]. *)
Definition prompts : list (string * value) :=
  [ ("initial", VStr prompt_initial);
    ("diagnostic", VStr prompt_diagnostic);
    ("solution", VStr prompt_solution) ].

(** [return prompts[stage] || prompts.initial].  The subscript converts
    [stage] to a property key first. *)
Definition getSystemPromptForStage (stage : value) : outcome value :=
  (let? key := js_String stage in
   Ok (js_or (literal_get prompts key) (literal_get prompts "initial")))%outcome.

(** [userMessage.toLowerCase()]. *)
Definition call_toLowerCase (v : value) : outcome string :=
  match v with
  | VStr s => Ok (String_toLowerCase E s)
  | VUndefined | VNull => throw_engine (CannotReadProperty "toLowerCase")
  | _ => throw_engine (NotAFunction "toLowerCase")
  end.

Definition solutionKeywords : list string :=
  [ "root cause"; "likely cause"; "problem is"; "issue is";
    "reduce"; "increase"; "replace"; "upgrade"; "try this";
    "adjust"; "calibrate"; "check the"; "verify the" ].

(** [determineNextStage].  [lower] and [solutionKeywords] are bound exactly
    where the source binds them; neither is read afterwards. *)
Definition determineNextStage (currentStage userMessage : value)
    (history : list value) : outcome Stage :=
  (let? lower := call_toLowerCase userMessage in
   if strict_eq_str currentStage "initial" then
     if (2 <=? List.length history)%nat then Ok diagnostic else Ok initial
   else if strict_eq_str currentStage "diagnostic" then
     let keywords := solutionKeywords in
     if (4 <=? List.length history)%nat then Ok solution else Ok diagnostic
   else Ok solution)%outcome.

(** [DiagnosisInput] and [DiagnosisOutput], with the types the values have
    at run time. *)
Record DiagnosisInput : Type := {
  in_sessionId : value;
  in_userMessage : value;
  in_conversationHistory : list value;
  in_currentStage : value
}.

Record DiagnosisOutput : Type := {
  systemPrompt : value;
  nextStage : Stage;
  out_sessionId : value
}.

(** [DiagnosisWorkflow.run]. *)
Definition DiagnosisWorkflow_run (trigger : DiagnosisInput)
    : outcome DiagnosisOutput :=
  (let? systemPrompt := getSystemPromptForStage (in_currentStage trigger) in
   let? nextStage := determineNextStage (in_currentStage trigger)
                       (in_userMessage trigger)
                       (in_conversationHistory trigger) in
   Ok {| systemPrompt := systemPrompt;
         nextStage := nextStage;
         out_sessionId := in_sessionId trigger |})%outcome.

End Engine.

(* ================================================================== *)
(** * index.ts: requests, responses and the world of one worker *)
(* ================================================================== *)

(** [AiMessage] and [AiOptions]. *)
Record AiMessage : Type := { role : string; content : value }.

Record AiOptions : Type := {
  messages : list AiMessage;
  temperature : Q;
  max_tokens : Z
}.

(** A request is its path, its method and what its body parses to as JSON
    ([None]: no body, or a body that is not JSON). *)
Record Request : Type := {
  pathname : string;
  method : string;
  req_body : option value
}.

Inductive body : Type :=
| JsonBody (payload : value)
| TextBody (text : string).

Record Response : Type := { status : Z; resp_body : body }.

(** Calls that leave the worker. *)
Inductive event : Type :=
| StubFetch (request : Request)
| AiRun (model : string) (options : AiOptions).

(** The durable object's storage (keys ['history'] and ['stage']), the
    clock, and the calls made so far, latest first.  ['history'] only ever
    holds the [JSON.stringify] of an array, so it is kept as the list that
    [JSON.parse] gives back; ['stage'] holds whatever value was put there,
    [undefined] when the key is absent.  The storage is that of the object
    which [idFromName(sessionId)] names. *)
Record World : Type := {
  stored_history : option (list value);
  stored_stage : value;
  ticks : nat;
  storage_ops : nat;
  trace : list event
}.

(** The collaborators, as one request sees them: the text-generation
    backend, the instants [Date.now()] returns, and which operations fail.
    [stub_fault r = Some m]: the stub's [fetch] of [r] rejects with message
    [m] (the object cannot be reached).  [storage_fault n = Some m]: the
    [n]-th storage operation rejects with message [m]. *)
Record Env : Type := {
  ai_run : string -> AiOptions -> outcome value;
  Date_now : nat -> Q;
  stub_fault : Request -> option string;
  storage_fault : nat -> option string
}.

(** Computations that read and write the world and may throw.  What was
    written before a throw stays written. *)
Definition M (A : Type) : Type := World -> outcome A * World.

Definition ret {A} (a : A) : M A := fun w => (Ok a, w).

Definition bind {A B} (c : M A) (k : A -> M B) : M B :=
  fun w =>
    match c w with
    | (Ok a, w') => k a w'
    | (Throw m, w') => (Throw m, w')
    end.

Definition lift {A} (c : outcome A) : M A := fun w => (c, w).

(** [try { c } catch (error) { handler(error.message) }]. *)
Definition try_catch {A} (c : M A) (handler : string -> M A) : M A :=
  fun w =>
    match c w with
    | (Ok a, w') => (Ok a, w')
    | (Throw m, w') => handler m w'
    end.

Declare Scope M_scope.
Delimit Scope M_scope with M.
Notation "x <- c ;; k" := (bind c (fun x => k))
  (at level 61, c at next level, right associativity) : M_scope.
Notation "c ;; k" := (bind c (fun _ => k))
  (at level 61, right associativity) : M_scope.

(** A computation that makes no call to a collaborator. *)
Definition silent {A} (c : M A) : Prop :=
  forall w, trace (snd (c w)) = trace w.

(** A computation that catches whatever it throws. *)
Definition total {A} (c : M A) : Prop :=
  forall w, exists a, fst (c w) = Ok a.

Section Worker.

Variable E : Engine.
Variable env : Env.

Local Open Scope M_scope.

(** [request.json()] and [response.json()]. *)
Definition Request_json (r : Request) : outcome value :=
  match req_body r with
  | Some v => Ok v
  | None => throw_engine E InvalidJSON
  end.

Definition Response_json (r : Response) : outcome value :=
  match resp_body r with
  | JsonBody v => Ok v
  | TextBody _ => throw_engine E InvalidJSON
  end.

(** [new Response(JSON.stringify(payload), { status, headers })]: the body
    is what a reader of the response parses. *)
Definition json_response (status : Z) (payload : value) : Response :=
  {| status := status; resp_body := JsonBody (JSON_roundtrip payload) |}.

(** [new Request(url, { method, body: JSON.stringify(payload) })]. *)
Definition json_request (pathname method : string) (payload : value)
    : Request :=
  {| pathname := pathname; method := method;
     req_body := Some (JSON_roundtrip payload) |}.

Definition array_length (l : list value) : value :=
  VNum (inject_Z (Z.of_nat (List.length l))).

(** The two requests the worker sends to the durable object:
    [new Request('http://do/state', { method: 'GET' })] and
    [new Request('http://do/message', { method: 'POST', body: ... })]. *)
Definition state_request : Request :=
  {| pathname := "/state"; method := "GET"; req_body := None |}.

Definition message_request (userMessage assistantMessage nextStage : value)
    : Request :=
  json_request "/message" "POST"
    (VObj [("userMessage", userMessage);
           ("assistantMessage", assistantMessage);
           ("nextStage", nextStage)]).

(** ** The durable object's storage and clock *)

Definition storage_operation {A} (action : World -> A * World) : M A :=
  fun w =>
    let w1 := {| stored_history := stored_history w;
                 stored_stage := stored_stage w;
                 ticks := ticks w;
                 storage_ops := S (storage_ops w);
                 trace := trace w |} in
    match storage_fault env (storage_ops w) with
    | Some m => (Throw m, w1)
    | None => let (a, w2) := action w1 in (Ok a, w2)
    end.

(** [this.state.storage.get('history')], already parsed. *)
Definition storage_get_history : M (option (list value)) :=
  storage_operation (fun w => (stored_history w, w)).

(** [this.state.storage.get('stage')]. *)
Definition storage_get_stage : M value :=
  storage_operation (fun w => (stored_stage w, w)).

(** [this.state.storage.put('history', JSON.stringify(history))]: what is
    kept is what [JSON.parse] will give back. *)
Definition storage_put_history (history : list value) : M unit :=
  storage_operation (fun w =>
    (tt, {| stored_history := Some (map JSON_element history);
            stored_stage := stored_stage w;
            ticks := ticks w;
            storage_ops := storage_ops w;
            trace := trace w |})).

(** [this.state.storage.put('stage', nextStage)]. *)
Definition storage_put_stage (stage : value) : M unit :=
  storage_operation (fun w =>
    (tt, {| stored_history := stored_history w;
            stored_stage := stage;
            ticks := ticks w;
            storage_ops := storage_ops w;
            trace := trace w |})).

(** [Date.now()]. *)
Definition Date_now_call : M Q :=
  fun w =>
    (Ok (Date_now env (ticks w)),
     {| stored_history := stored_history w;
        stored_stage := stored_stage w;
        ticks := S (ticks w);
        storage_ops := storage_ops w;
        trace := trace w |}).

(** ** class AdvisorState *)

(** [JSON.parse(historyStr)] with [historyStr = ... || '[]']. *)
Definition parse_history (historyStr : option (list value)) : list value :=
  match historyStr with
  | Some h => h
  | None => []
  end.

Definition error_response (message : string) : Response :=
  json_response 500 (VObj [("error", VStr message)]).

(** [AdvisorState.handleMessage]. *)
Definition AdvisorState_handleMessage (request : Request) : M Response :=
  try_catch
    (parsed <- lift (Request_json request) ;;
     userMessage <- lift (destructure E parsed "userMessage") ;;
     assistantMessage <- lift (destructure E parsed "assistantMessage") ;;
     nextStage <- lift (destructure E parsed "nextStage") ;;
     historyStr <- storage_get_history ;;
     let history := parse_history historyStr in
     t1 <- Date_now_call ;;
     let history :=
       history ++ [VObj [("role", VStr "user"); ("content", userMessage);
                         ("timestamp", VNum t1)]] in
     t2 <- Date_now_call ;;
     let history :=
       history ++ [VObj [("role", VStr "assistant");
                         ("content", assistantMessage);
                         ("timestamp", VNum t2)]] in
     storage_put_history history ;;
     storage_put_stage nextStage ;;
     ret (json_response 200
            (VObj [("success", VBool true);
                   ("messageCount", array_length history);
                   ("stage", nextStage)])))
    (fun message => ret (error_response message)).

(** [AdvisorState.getState]. *)
Definition AdvisorState_getState : M Response :=
  try_catch
    (historyStr <- storage_get_history ;;
     stage0 <- storage_get_stage ;;
     let stage := js_or stage0 (VStr "initial") in
     let history := parse_history historyStr in
     ret (json_response 200
            (VObj [("stage", stage);
                   ("messageCount", array_length history);
                   ("history", VArr history)])))
    (fun message => ret (error_response message)).

(** [AdvisorState.fetch]. *)
Definition AdvisorState_fetch (request : Request) : M Response :=
  if String.eqb (pathname request) "/message"
     && String.eqb (method request) "POST"
  then AdvisorState_handleMessage request
  else if String.eqb (pathname request) "/state"
          && String.eqb (method request) "GET"
  then AdvisorState_getState
  else ret {| status := 404; resp_body := TextBody "Not found" |}.

(** ** The worker *)

(** [doStub.fetch(request)]: the call is recorded; either the object cannot
    be reached and the call rejects, or the object handles the request. *)
Definition doStub_fetch (request : Request) : M Response :=
  fun w =>
    let w1 := {| stored_history := stored_history w;
                 stored_stage := stored_stage w;
                 ticks := ticks w;
                 storage_ops := storage_ops w;
                 trace := StubFetch request :: trace w |} in
    match stub_fault env request with
    | Some m => (Throw m, w1)
    | None => AdvisorState_fetch request w1
    end.

(** [env.AI.run(model, options)]. *)
Definition AI_run (model : string) (options : AiOptions) : M value :=
  fun w =>
    (ai_run env model options,
     {| stored_history := stored_history w;
        stored_stage := stored_stage w;
        ticks := ticks w;
        storage_ops := storage_ops w;
        trace := AiRun model options :: trace w |}).

(** [array.slice(-n)]: the last [n] elements, all of them when there are
    fewer. *)
Definition slice_last {A} (n : nat) (l : list A) : list A :=
  skipn (List.length l - n) l.

(** The callback of [filter]: [m && m.role && m.content]. *)
Definition has_role_and_content (m : value) : bool :=
  truthy m && truthy (prop E m "role") && truthy (prop E m "content").

(** The callback of [map]: [{ role: String(m.role), content: String(m.content) }]. *)
Definition to_AiMessage (m : value) : outcome AiMessage :=
  (let? m_role := get_prop E m "role" in
   let? r := js_String E m_role in
   let? m_content := get_prop E m "content" in
   let? c := js_String E m_content in
   Ok {| role := r; content := VStr c |})%outcome.

Fixpoint map_outcome {A B} (f : A -> outcome B) (l : list A)
    : outcome (list B) :=
  match l with
  | [] => Ok []
  | x :: rest =>
      (let? y := f x in
       let? ys := map_outcome f rest in
       Ok (y :: ys))%outcome
  end.

(** The [messages] array of [handleChat]. *)
Definition build_messages (systemPrompt : value)
    (conversationHistory : list value) (userMessage : value)
    : outcome (list AiMessage) :=
  (let? derived := map_outcome to_AiMessage
                     (filter has_role_and_content
                        (slice_last 8 conversationHistory)) in
   Ok ({| role := "system"; content := systemPrompt |}
       :: derived
       ++ [{| role := "user"; content := userMessage |}]))%outcome.

(** [String(aiResponse.response || aiResponse)]. *)
Definition coerce_response (aiResponse : value) : outcome string :=
  (let? response := get_prop E aiResponse "response" in
   js_String E (js_or response aiResponse))%outcome.

(** [sessionState.history || []].  The state endpoint only ever answers
    with an array under [history]; any other truthy value would be used as
    it is by the source and is read as the empty array here. *)
Definition history_or_empty (v : value) : list value :=
  match js_or v (VArr []) with
  | VArr l => l
  | _ => []
  end.

Definition llama_model : string := "@cf/meta/llama-3.3-70b-instruct-fp8-fast".

(** [handleChat].  Building the stub ([idFromName], [get]) reaches no
    collaborator and is left out. *)
Definition handleChat (request : Request) : M Response :=
  try_catch
    (parsed <- lift (Request_json request) ;;
     sessionId <- lift (destructure E parsed "sessionId") ;;
     userMessage <- lift (destructure E parsed "userMessage") ;;
     if negb (truthy sessionId) || negb (truthy userMessage) then
       ret (json_response 400
              (VObj [("error", VStr "sessionId and userMessage required")]))
     else
       stateRes <- doStub_fetch state_request ;;
       sessionState <- lift (Response_json stateRes) ;;
       stage0 <- lift (get_prop E sessionState "stage") ;;
       let currentStage := js_or stage0 (VStr "initial") in
       history0 <- lift (get_prop E sessionState "history") ;;
       let conversationHistory := history_or_empty history0 in
       workflowResult <- lift (DiagnosisWorkflow_run E
                                 {| in_sessionId := sessionId;
                                    in_userMessage := userMessage;
                                    in_conversationHistory := conversationHistory;
                                    in_currentStage := currentStage |}) ;;
       let nextStage := VStr (stage_label (nextStage workflowResult)) in
       messages <- lift (build_messages (systemPrompt workflowResult)
                           conversationHistory userMessage) ;;
       aiResponse <- AI_run llama_model
                       {| messages := messages;
                          temperature := 1 # 2;
                          max_tokens := 400 |} ;;
       assistantMessage <- lift (coerce_response aiResponse) ;;
       let assistantMessage := VStr assistantMessage in
       doStub_fetch
         (message_request userMessage assistantMessage nextStage) ;;
       ret (json_response 200
              (VObj [("message", assistantMessage);
                     ("stage", nextStage);
                     ("sessionId", sessionId)])))
    (fun message => ret (error_response message)).

(** What a reader of the state endpoint's answer finds under [stage] and
    under [history]. *)
Definition read_stage (r : Response) : option value :=
  match resp_body r with
  | JsonBody (VObj fields) => lookup "stage" fields
  | _ => None
  end.

Definition read_history (r : Response) : option (list value) :=
  match resp_body r with
  | JsonBody (VObj fields) =>
      match lookup "history" fields with
      | Some (VArr history) => Some history
      | _ => None
      end
  | _ => None
  end.

(** How a message of the request relates to the history entry it comes
    from when the entry's role and content are strings: both are copied
    unchanged, and neither is empty. *)
Definition copied_from (m : value) (a : AiMessage) : Prop :=
  prop E m "role" = VStr (role a)
  /\ prop E m "content" = content a
  /\ role a <> ""
  /\ exists c, content a = VStr c /\ c <> "".

End Worker.

(* ================================================================== *)
(** * Sessions and turns *)
(* ================================================================== *)

(** The order [initial < diagnostic < solution]. *)
Definition stage_rank (s : Stage) : nat :=
  match s with
  | initial => 0
  | diagnostic => 1
  | solution => 2
  end.

Definition stage_le (a b : Stage) : Prop := stage_rank a <= stage_rank b.

(** A session driven by the stage policy alone: every turn hands the stage
    the previous turn returned back to [determineNextStage], together with
    that turn's user message and whatever the history is by then.  The
    result lists the stages visited, the starting stage first. *)
Fixpoint session_stages (E : Engine) (current : Stage)
    (turns : list (string * list value)) : list Stage :=
  current ::
  match turns with
  | [] => []
  | (userMessage, history) :: rest =>
      match determineNextStage E (VStr (stage_label current))
              (VStr userMessage) history with
      | Ok next => session_stages E next rest
      | Throw _ => []
      end
  end.

(** [ChatMessage], the declared shape of a stored turn. *)
Inductive Role : Type := user | assistant.

Definition role_label (r : Role) : string :=
  match r with
  | user => "user"
  | assistant => "assistant"
  end.

Record ChatMessage : Type := {
  msg_role : Role;
  msg_content : string;
  msg_timestamp : Q
}.

(** The object a [ChatMessage] is at run time. *)
Definition ChatMessage_value (m : ChatMessage) : value :=
  VObj [("role", VStr (role_label (msg_role m)));
        ("content", VStr (msg_content m));
        ("timestamp", VNum (msg_timestamp m))].

(** The message a stored turn contributes to the generation request. *)
Definition ChatMessage_AiMessage (m : ChatMessage) : AiMessage :=
  {| role := role_label (msg_role m); content := VStr (msg_content m) |}.

(** ** An engine and collaborators to run examples on *)

Definition ascii_lower (c : ascii) : ascii :=
  let n := nat_of_ascii c in
  if ((65 <=? n) && (n <=? 90))%nat then ascii_of_nat (n + 32) else c.

Fixpoint lower_string (s : string) : string :=
  match s with
  | EmptyString => EmptyString
  | String c rest => String (ascii_lower c) (lower_string rest)
  end.

Definition decimal (z : Z) : string := NilZero.string_of_int (Z.to_int z).

(** Integers are rendered as the engine renders them; the rendering of the
    other numbers is a stand-in that no example below depends on.  The
    error texts follow the engine's in style only. *)
Definition sample_engine : Engine :=
  {| Number_toString := fun q =>
       if Pos.eqb (Qden q) 1 then decimal (Qnum q)
       else (decimal (Qnum q) ++ "/" ++ decimal (Zpos (Qden q)))%string;
     String_toLowerCase := lower_string;
     native_toString := fun name =>
       ("function " ++ name ++ "() { [native code] }")%string;
     error_message := fun e =>
       match e with
       | CannotReadProperty key =>
           ("Cannot read properties of null or undefined (reading '"
            ++ key ++ "')")%string
       | CannotDestructure => "Cannot destructure property of null"
       | NotAFunction key => (key ++ " is not a function")%string
       | CannotConvertToPrimitive => "Cannot convert object to primitive value"
       | InvalidJSON => "Unexpected end of JSON input"
       end |}.

(** A backend that answers every request with the same text, and
    collaborators that never fail. *)
Definition echo_env (reply : value) : Env :=
  {| ai_run := fun _ _ => Ok reply;
     Date_now := fun n => inject_Z (Z.of_nat n);
     stub_fault := fun _ => None;
     storage_fault := fun _ => None |}.

Definition fresh_world : World :=
  {| stored_history := None;
     stored_stage := VUndefined;
     ticks := 0;
     storage_ops := 0;
     trace := [] |}.

(** A chat request carrying the two fields the worker reads. *)
Definition chat_request (sessionId userMessage : value) : Request :=
  {| pathname := "/api/chat"; method := "POST";
     req_body := Some (VObj [("sessionId", sessionId);
                             ("userMessage", userMessage)]) |}.

Definition turn (r : Role) (text : string) (instant : Z) : ChatMessage :=
  {| msg_role := r; msg_content := text; msg_timestamp := inject_Z instant |}.

(** Five exchanges. *)
Definition ten_turns : list ChatMessage :=
  [ turn user "my line follower oscillates" 1;
    turn assistant "Which sensors does it use?" 2;
    turn user "two infrared sensors" 3;
    turn assistant "How far apart are they?" 4;
    turn user "about 3 cm" 5;
    turn assistant "What are the PID gains?" 6;
    turn user "Kp 2, Kd 0" 7;
    turn assistant "Does it oscillate at low speed too?" 8;
    turn user "only at full speed" 9;
    turn assistant "Add derivative gain and lower Kp." 10 ].

(** The same five exchanges, one assistant turn of which is the empty
    text. *)
Definition ten_turns_one_blank : list ChatMessage :=
  [ turn user "my line follower oscillates" 1;
    turn assistant "Which sensors does it use?" 2;
    turn user "two infrared sensors" 3;
    turn assistant "How far apart are they?" 4;
    turn user "about 3 cm" 5;
    turn assistant "" 6;
    turn user "Kp 2, Kd 0" 7;
    turn assistant "Does it oscillate at low speed too?" 8;
    turn user "only at full speed" 9;
    turn assistant "Add derivative gain and lower Kp." 10 ].

(** A history entry whose role is an empty array: truthy, and rendered by
    [String] as the empty string. *)
Definition entry_with_array_role : value :=
  VObj [("role", VArr []); ("content", VStr "x")].

Definition sensor_reply : value :=
  VObj [("response", VStr "Check the sensor spacing.")].

(** The session store cannot be reached for the write. *)
Definition unreachable_on_write : Env :=
  {| ai_run := fun _ _ => Ok sensor_reply;
     Date_now := fun n => inject_Z (Z.of_nat n);
     stub_fault := fun r =>
       if String.eqb (pathname r) "/message"
       then Some "Network connection lost." else None;
     storage_fault := fun _ => None |}.

(** The session store is reached, and inside it the [put] of the history
    (the fourth storage operation of a chat turn) fails. *)
Definition put_fails : Env :=
  {| ai_run := fun _ _ => Ok sensor_reply;
     Date_now := fun n => inject_Z (Z.of_nat n);
     stub_fault := fun _ => None;
     storage_fault := fun n =>
       if Nat.eqb n 3 then Some "storage put failed" else None |}.

(** A session of four turns, the history growing by two entries a turn. *)
Definition four_turn_session : list (string * list value) :=
  [ ("my line follower oscillates", []);
    ("two infrared sensors", map ChatMessage_value (firstn 2 ten_turns));
    ("about 3 cm", map ChatMessage_value (firstn 4 ten_turns));
    ("Kp 2, Kd 0", map ChatMessage_value (firstn 6 ten_turns)) ].

(* ================================================================== *)
(** * index.ts: the worker's router and the history endpoint *)
(* ================================================================== *)

(** [s.split(sep)[1]] for a separator that is not empty: the text between
    the first occurrence of [sep] and the next one, [undefined] when [sep]
    does not occur. *)
Fixpoint drop (n : nat) (s : string) : string :=
  match n, s with
  | S n', String _ rest => drop n' rest
  | _, _ => s
  end.

(** The text after the first occurrence of [sep]. *)
Fixpoint after_first (sep s : string) : option string :=
  if String.prefix sep s then Some (drop (String.length sep) s)
  else match s with
       | EmptyString => None
       | String _ rest => after_first sep rest
       end.

(** The text before the first occurrence of [sep], all of it when there is
    none. *)
Fixpoint before_first (sep s : string) : string :=
  if String.prefix sep s then EmptyString
  else match s with
       | EmptyString => EmptyString
       | String c rest => String c (before_first sep rest)
       end.

Definition split_second (sep s : string) : value :=
  match after_first sep s with
  | Some rest => VStr (before_first sep rest)
  | None => VUndefined
  end.

(** [new URL(request.url).pathname.split('/api/history/')[1]]. *)
Definition history_sessionId (request : Request) : value :=
  split_second "/api/history/" (pathname request).

Section Router.

Variable E : Engine.
Variable env : Env.

(** The document [serveUI] answers with; its text plays no part in what
    the worker does. *)
Variable chat_ui : string.

Local Open Scope M_scope.

(** [getHistory].  The stub is the one of the object that the session id
    of the path names; as in [handleChat], building it reaches no
    collaborator.  The store's answer is passed on under a new status. *)
Definition getHistory (request : Request) : M Response :=
  try_catch
    (let sessionId := history_sessionId request in
     stateRes <- doStub_fetch E env state_request ;;
     payload <- lift (Response_json E stateRes) ;;
     ret (json_response 200 payload))
    (fun message => ret (error_response message)).

(** [serveUI]. *)
Definition serveUI : Response :=
  {| status := 200; resp_body := TextBody chat_ui |}.

(** The worker's [fetch]. *)
Definition Worker_fetch (request : Request) : M Response :=
  if String.eqb (pathname request) "/" && String.eqb (method request) "GET"
  then ret serveUI
  else if String.eqb (pathname request) "/api/chat"
          && String.eqb (method request) "POST"
  then handleChat E env request
  else if String.prefix "/api/history/" (pathname request)
          && String.eqb (method request) "GET"
  then getHistory request
  else ret (json_response 404 (VObj [("error", VStr "Not found")])).

End Router.

(* ================================================================== *)
(** * What a session holds *)
(* ================================================================== *)

(** The prompt text of each stage. *)
Definition stage_prompt (s : Stage) : string :=
  match s with
  | initial => prompt_initial
  | diagnostic => prompt_diagnostic
  | solution => prompt_solution
  end.

(** A history made of exchanges: a user turn whose text is not empty, then
    an assistant turn. *)
Inductive exchanges : list value -> Prop :=
| exchanges_none : exchanges []
| exchanges_more (h : list value) (u a : string) (t1 t2 : Q) :
    exchanges h -> u <> "" ->
    exchanges
      (h ++ [ChatMessage_value {| msg_role := user; msg_content := u;
                                  msg_timestamp := t1 |};
             ChatMessage_value {| msg_role := assistant; msg_content := a;
                                  msg_timestamp := t2 |}]).

(** The stage a stored value stands for when it is read back:
    [stage || 'initial']. *)
Definition stage_held (v : value) (s : Stage) : Prop :=
  v = VStr (stage_label s) \/ (v = VUndefined /\ s = initial).

(** A store as chat turns leave it. *)
Definition well_formed_store (w : World) : Prop :=
  exchanges (parse_history (stored_history w))
  /\ exists s, stage_held (stored_stage w) s.

(** The same stored data. *)
Definition same_store (w w' : World) : Prop :=
  stored_history w' = stored_history w /\ stored_stage w' = stored_stage w.

(** A stored turn whose text is not empty. *)
Definition has_text (m : ChatMessage) : bool :=
  negb (String.eqb (msg_content m) "").

(** The stage a stored value reads as: the stored label when it is
    [diagnostic] or [solution], [initial] for anything else. *)
Definition stage_read (v : value) : Stage :=
  match v with
  | VStr s => if String.eqb s "diagnostic" then diagnostic
              else if String.eqb s "solution" then solution
              else initial
  | _ => initial
  end.

(** A computation that leaves the stored history and stage as they are. *)
Definition keeps_store {A} (c : M A) : Prop :=
  forall w, same_store w (snd (c w)).

(** The history a write leaves behind: the stored one with a user turn and
    an assistant turn appended. *)
Definition appended (w : World) (userMessage assistantMessage : value)
    (t1 t2 : Q) : option (list value) :=
  Some (map JSON_element
          (parse_history (stored_history w)
           ++ [VObj [("role", VStr "user"); ("content", userMessage);
                     ("timestamp", VNum t1)];
               VObj [("role", VStr "assistant");
                     ("content", assistantMessage);
                     ("timestamp", VNum t2)]])).

(** The worlds a worker goes through while it serves requests one after
    the other. *)
Fixpoint serve_all (E : Engine) (env : Env) (chat_ui : string)
    (requests : list Request) (w : World) : World :=
  match requests with
  | [] => w
  | request :: rest =>
      serve_all E env chat_ui rest
        (snd (Worker_fetch E env chat_ui request w))
  end.

(** The ways a chat turn can go, read off [handleChat]: refused before any
    call; stopped after the state was read; stopped at the backend;
    carried through to the write. *)
Inductive chat_path (E : Engine) (env : Env) (request : Request) (w : World)
  : outcome Response -> World -> Prop :=
| chat_refused (r : Response) :
    status r = 400%Z \/ status r = 500%Z ->
    chat_path E env request w (Ok r) w
| chat_stopped_after_read (message : string) (res1 : outcome Response)
    (w1 : World) :
    doStub_fetch E env state_request w = (res1, w1) ->
    chat_path E env request w (Ok (error_response message)) w1
| chat_stopped_at_backend (systemPrompt : value) (history : list value)
    (userMessage message : string) (msgs : list AiMessage)
    (stateRes : Response) (w1 w2 : World) :
    doStub_fetch E env state_request w = (Ok stateRes, w1) ->
    build_messages E systemPrompt history (VStr userMessage) = Ok msgs ->
    AI_run env llama_model
      {| messages := msgs; temperature := 1 # 2; max_tokens := 400 |} w1
    = (ai_run env llama_model
         {| messages := msgs; temperature := 1 # 2; max_tokens := 400 |},
       w2) ->
    (ai_run env llama_model
       {| messages := msgs; temperature := 1 # 2; max_tokens := 400 |}
     = Throw message
     \/ exists aiResponse,
          ai_run env llama_model
            {| messages := msgs; temperature := 1 # 2; max_tokens := 400 |}
          = Ok aiResponse
          /\ coerce_response E aiResponse = Throw message) ->
    chat_path E env request w (Ok (error_response message)) w2
| chat_wrote (sessionId sessionState stage0 history0 systemPrompt : value)
    (userMessage text : string) (next : Stage) (msgs : list AiMessage)
    (aiResponse : value) (stateRes : Response)
    (res3 : outcome Response) (w1 w2 w3 : World) :
    userMessage <> "" ->
    doStub_fetch E env state_request w = (Ok stateRes, w1) ->
    Response_json E stateRes = Ok sessionState ->
    get_prop E sessionState "stage" = Ok stage0 ->
    get_prop E sessionState "history" = Ok history0 ->
    determineNextStage E (js_or stage0 (VStr "initial")) (VStr userMessage)
      (history_or_empty history0) = Ok next ->
    build_messages E systemPrompt (history_or_empty history0)
      (VStr userMessage) = Ok msgs ->
    AI_run env llama_model
      {| messages := msgs; temperature := 1 # 2; max_tokens := 400 |} w1
    = (Ok aiResponse, w2) ->
    coerce_response E aiResponse = Ok text ->
    doStub_fetch E env
      (message_request (VStr userMessage) (VStr text)
         (VStr (stage_label next))) w2 = (res3, w3) ->
    chat_path E env request w
      match res3 with
      | Ok _ => Ok (json_response 200
                      (VObj [("message", VStr text);
                             ("stage", VStr (stage_label next));
                             ("sessionId", sessionId)]))
      | Throw m => Ok (error_response m)
      end
      w3.

(** ** More collaborators and sessions to run examples on *)

(** The backend is down. *)
Definition backend_down : Env :=
  {| ai_run := fun _ _ => Throw "model unavailable";
     Date_now := fun n => inject_Z (Z.of_nat n);
     stub_fault := fun _ => None;
     storage_fault := fun _ => None |}.

(** The store is reached and its first storage operation fails. *)
Definition first_read_fails : Env :=
  {| ai_run := fun _ _ => Ok sensor_reply;
     Date_now := fun n => inject_Z (Z.of_nat n);
     stub_fault := fun _ => None;
     storage_fault := fun n =>
       if Nat.eqb n 0 then Some "storage unavailable" else None |}.

(** A session that has reached [solution] after three exchanges. *)
Definition solved_world : World :=
  {| stored_history := Some (map ChatMessage_value (firstn 6 ten_turns));
     stored_stage := VStr "solution";
     ticks := 0;
     storage_ops := 0;
     trace := [] |}.

(** A session at [diagnostic] after two exchanges. *)
Definition diagnostic_world : World :=
  {| stored_history := Some (map ChatMessage_value (firstn 4 ten_turns));
     stored_stage := VStr "diagnostic";
     ticks := 0;
     storage_ops := 0;
     trace := [] |}.

Definition history_request (id : string) : Request :=
  {| pathname := ("/api/history/" ++ id)%string; method := "GET";
     req_body := None |}.

(** Chat turns, a read of the history, a turn without text and a request
    to a path the worker does not route. *)
Definition mixed_requests : list Request :=
  [ chat_request (VStr "s1") (VStr "my line follower oscillates");
    history_request "s1";
    chat_request (VStr "s1") (VStr "");
    chat_request (VStr "s1") (VStr "two infrared sensors");
    {| pathname := "/api/unknown"; method := "GET"; req_body := None |};
    chat_request (VStr "s1") (VStr "about 3 cm") ].

(* ================================================================== *)
(** * The stage policy *)
(* ================================================================== *)

Section StagePolicy.

Variable E : Engine.

Lemma call_toLowerCase_string (s : string) :
  call_toLowerCase E (VStr s) = Ok (String_toLowerCase E s).
Proof. reflexivity. Qed.

(** On a string message the transition never throws, and it is the
    following function of the current stage and of the history length. *)
Lemma determineNextStage_string (currentStage : value) (userMessage : string)
    (history : list value) :
  determineNextStage E currentStage (VStr userMessage) history =
  Ok (if strict_eq_str currentStage "initial" then
        if (2 <=? List.length history)%nat then diagnostic else initial
      else if strict_eq_str currentStage "diagnostic" then
        if (4 <=? List.length history)%nat then solution else diagnostic
      else solution).
Proof.
  unfold determineNextStage. rewrite call_toLowerCase_string. unfold obind.
  destruct (strict_eq_str currentStage "initial").
  - destruct (2 <=? List.length history)%nat; reflexivity.
  - destruct (strict_eq_str currentStage "diagnostic").
    + destruct (4 <=? List.length history)%nat; reflexivity.
    + reflexivity.
Qed.

Lemma stage_label_initial (s : Stage) :
  strict_eq_str (VStr (stage_label s)) "initial" =
  match s with initial => true | _ => false end.
Proof. destruct s; reflexivity. Qed.

Lemma stage_label_diagnostic (s : Stage) :
  strict_eq_str (VStr (stage_label s)) "diagnostic" =
  match s with diagnostic => true | _ => false end.
Proof. destruct s; reflexivity. Qed.

(** The same, read off the three recognised stages. *)
Lemma determineNextStage_label (s : Stage) (userMessage : string)
    (history : list value) :
  determineNextStage E (VStr (stage_label s)) (VStr userMessage) history =
  Ok match s with
     | initial => if (2 <=? List.length history)%nat then diagnostic
                  else initial
     | diagnostic => if (4 <=? List.length history)%nat then solution
                     else diagnostic
     | solution => solution
     end.
Proof.
  rewrite determineNextStage_string.
  rewrite stage_label_initial, stage_label_diagnostic.
  destruct s; reflexivity.
Qed.

(** C1. The transition follows the decision table: from [initial] it stays
    at [initial] while the history has fewer than 2 entries and moves to
    [diagnostic] from 2 entries on; from [diagnostic] it stays while the
    history has fewer than 4 entries and moves to [solution] from 4 on;
    from [solution] it returns [solution] whatever the history. *)
Theorem determineNextStage_decision_table
    (userMessage : string) (history : list value) :
  (List.length history < 2 ->
   determineNextStage E (VStr "initial") (VStr userMessage) history
   = Ok initial) /\
  (2 <= List.length history ->
   determineNextStage E (VStr "initial") (VStr userMessage) history
   = Ok diagnostic) /\
  (List.length history < 4 ->
   determineNextStage E (VStr "diagnostic") (VStr userMessage) history
   = Ok diagnostic) /\
  (4 <= List.length history ->
   determineNextStage E (VStr "diagnostic") (VStr userMessage) history
   = Ok solution) /\
  determineNextStage E (VStr "solution") (VStr userMessage) history
  = Ok solution.
Proof.
  change (VStr "initial") with (VStr (stage_label initial)).
  change (VStr "diagnostic") with (VStr (stage_label diagnostic)).
  change (VStr "solution") with (VStr (stage_label solution)).
  rewrite !determineNextStage_label.
  repeat split; intros.
  - destruct (Nat.leb_spec 2 (List.length history)); [lia | reflexivity].
  - destruct (Nat.leb_spec 2 (List.length history)); [reflexivity | lia].
  - destruct (Nat.leb_spec 4 (List.length history)); [lia | reflexivity].
  - destruct (Nat.leb_spec 4 (List.length history)); [reflexivity | lia].
Qed.

(** C4. The stage returned does not depend on the user message, and of the
    history only its length matters: two calls with the same current stage,
    any two messages and two histories of equal length return the same
    stage.  The keyword list takes no part in the decision. *)
Theorem determineNextStage_ignores_message
    (currentStage : value) (m1 m2 : string) (h1 h2 : list value) :
  List.length h1 = List.length h2 ->
  determineNextStage E currentStage (VStr m1) h1
  = determineNextStage E currentStage (VStr m2) h2.
Proof.
  intros Hlen. rewrite !determineNextStage_string, Hlen. reflexivity.
Qed.

Lemma strict_eq_str_unrecognised (s lit : string) :
  s <> lit -> strict_eq_str (VStr s) lit = false.
Proof. intros H. unfold strict_eq_str. apply String.eqb_neq. exact H. Qed.

(** A current stage that is not one of the three label strings passes
    neither comparison and reaches the final [return 'solution']. *)
Lemma determineNextStage_unrecognised (currentStage : value)
    (userMessage : string) (history : list value) :
  (forall s, currentStage <> VStr (stage_label s)) ->
  determineNextStage E currentStage (VStr userMessage) history = Ok solution.
Proof.
  intros Hnot. rewrite determineNextStage_string.
  destruct currentStage as [| | b | q | s | l | f | n]; try reflexivity.
  rewrite (strict_eq_str_unrecognised s "initial");
    [| intros ->; exact (Hnot initial eq_refl)].
  rewrite (strict_eq_str_unrecognised s "diagnostic");
    [| intros ->; exact (Hnot diagnostic eq_refl)].
  reflexivity.
Qed.

(** One policy step never moves backward. *)
Lemma determineNextStage_forward (s : Stage) (userMessage : string)
    (history : list value) :
  exists next,
    determineNextStage E (VStr (stage_label s)) (VStr userMessage) history
    = Ok next /\ stage_le s next.
Proof.
  rewrite determineNextStage_label.
  eexists. split; [reflexivity |].
  unfold stage_le.
  destruct s;
    try destruct (2 <=? List.length history)%nat;
    try destruct (4 <=? List.length history)%nat; simpl; lia.
Qed.

Lemma session_stages_length (turns : list (string * list value)) :
  forall s, List.length (session_stages E s turns) = S (List.length turns).
Proof.
  induction turns as [| [m h] rest IH]; intros s; simpl.
  - reflexivity.
  - destruct (determineNextStage_forward s m h) as (next & Hnext & _).
    rewrite Hnext. rewrite IH. reflexivity.
Qed.

(** Every stage visited is at or after the starting one. *)
Lemma session_stages_above (turns : list (string * list value)) :
  forall s, Forall (stage_le s) (session_stages E s turns).
Proof.
  induction turns as [| [m h] rest IH]; intros s; simpl.
  - constructor; [unfold stage_le; lia | constructor].
  - constructor; [unfold stage_le; lia |].
    destruct (determineNextStage_forward s m h) as (next & Hnext & Hle).
    rewrite Hnext.
    eapply Forall_impl; [| apply IH].
    intros x Hx. unfold stage_le in *. lia.
Qed.

Lemma session_stages_sorted (turns : list (string * list value)) :
  forall s, StronglySorted stage_le (session_stages E s turns).
Proof.
  induction turns as [| [m h] rest IH]; intros s; simpl.
  - constructor; constructor.
  - destruct (determineNextStage_forward s m h) as (next & Hnext & Hle).
    rewrite Hnext. constructor.
    + apply IH.
    + eapply Forall_impl; [| apply session_stages_above].
      intros x Hx. unfold stage_le in *. lia.
Qed.

Lemma stage_rank_top (s : Stage) : stage_rank s <= 2.
Proof. destruct s; simpl; lia. Qed.

Lemma stage_rank_solution (s : Stage) : stage_rank s = 2 -> s = solution.
Proof. destruct s; simpl; intros H; try reflexivity; lia. Qed.

(** C6. A session that starts at [initial] and is driven by the policy
    runs every one of its turns, visits stages in non-decreasing order of
    [initial < diagnostic < solution], and once it has visited [solution]
    every later stage is [solution]. *)
Theorem stage_progression_monotone (turns : list (string * list value)) :
  let stages := session_stages E initial turns in
  List.length stages = S (List.length turns)
  /\ StronglySorted stage_le stages
  /\ forall i j, i <= j -> j < List.length stages ->
       nth i stages initial = solution -> nth j stages initial = solution.
Proof.
  intros stages. split; [apply session_stages_length |].
  assert (Hsorted : StronglySorted stage_le stages)
    by apply session_stages_sorted.
  split; [exact Hsorted |].
  intros i j Hij Hj Hi.
  assert (Hle : stage_le (nth i stages initial) (nth j stages initial)).
  { clear Hi. revert i j Hij Hj.
    induction Hsorted as [| a l Hl IH Hall]; intros i j Hij Hj.
    - simpl in Hj. lia.
    - destruct i as [| i]; destruct j as [| j]; simpl in *.
      + unfold stage_le. lia.
      + rewrite Forall_forall in Hall. apply Hall. apply nth_In. lia.
      + lia.
      + apply IH; lia. }
  rewrite Hi in Hle. unfold stage_le in Hle. simpl in Hle.
  apply stage_rank_solution.
  pose proof (stage_rank_top (nth j stages initial)). lia.
Qed.

End StagePolicy.

(* ================================================================== *)
(** * Assembling the generation request *)
(* ================================================================== *)

Section Assembly.

Variable E : Engine.

Lemma slice_last_length {A} (n : nat) (l : list A) :
  List.length (slice_last n l) = Nat.min n (List.length l).
Proof. unfold slice_last. rewrite length_skipn. lia. Qed.

Lemma slice_last_map {A B} (f : A -> B) (n : nat) (l : list A) :
  slice_last n (map f l) = map f (slice_last n l).
Proof. unfold slice_last. rewrite length_map, skipn_map. reflexivity. Qed.

Lemma slice_last_incl {A} (n : nat) (l : list A) (x : A) :
  In x (slice_last n l) -> In x l.
Proof.
  unfold slice_last. intros H.
  rewrite <- (firstn_skipn (List.length l - n) l).
  apply in_or_app. right. exact H.
Qed.

Lemma map_outcome_ok {A B C} (f : B -> outcome C) (h : A -> B) (g : A -> C)
    (l : list A) :
  (forall x, In x l -> f (h x) = Ok (g x)) ->
  map_outcome f (map h l) = Ok (map g l).
Proof.
  induction l as [| x rest IH]; intros H; simpl.
  - reflexivity.
  - rewrite (H x (or_introl eq_refl)). simpl.
    rewrite IH by (intros y Hy; apply H; right; exact Hy).
    reflexivity.
Qed.

Lemma filter_keeps_all {A} (p : A -> bool) (l : list A) :
  (forall x, In x l -> p x = true) -> filter p l = l.
Proof.
  intros H. apply forallb_filter_id. apply forallb_forall. exact H.
Qed.

Lemma role_label_not_empty (r : Role) : role_label r <> "".
Proof. destruct r; discriminate. Qed.

Lemma truthy_string (s : string) : truthy (VStr s) = true <-> s <> "".
Proof.
  simpl. rewrite negb_true_iff. apply String.eqb_neq.
Qed.

(** A stored turn passes the filter exactly when its content is not
    empty. *)
Lemma has_role_and_content_ChatMessage (m : ChatMessage) :
  has_role_and_content E (ChatMessage_value m)
  = negb (String.eqb (msg_content m) "").
Proof.
  unfold has_role_and_content, ChatMessage_value, prop, get_prop. simpl.
  destruct (msg_role m); reflexivity.
Qed.

Lemma to_AiMessage_ChatMessage (m : ChatMessage) :
  to_AiMessage E (ChatMessage_value m) = Ok (ChatMessage_AiMessage m).
Proof. reflexivity. Qed.

(** The request built from stored turns none of whose recent contents is
    empty: nothing is dropped. *)
Lemma build_messages_turns (systemPrompt userMessage : value)
    (turns : list ChatMessage) :
  Forall (fun m => msg_content m <> "") (slice_last 8 turns) ->
  build_messages E systemPrompt (map ChatMessage_value turns) userMessage
  = Ok ({| role := "system"; content := systemPrompt |}
        :: map ChatMessage_AiMessage (slice_last 8 turns)
        ++ [{| role := "user"; content := userMessage |}]).
Proof.
  intros Hcontent. unfold build_messages.
  rewrite slice_last_map.
  rewrite filter_keeps_all.
  - rewrite (map_outcome_ok _ _ ChatMessage_AiMessage).
    + reflexivity.
    + intros m _. apply to_AiMessage_ChatMessage.
  - intros v Hv. apply in_map_iff in Hv. destruct Hv as (m & <- & Hm).
    rewrite has_role_and_content_ChatMessage.
    rewrite Forall_forall in Hcontent.
    apply negb_true_iff, String.eqb_neq, Hcontent, Hm.
Qed.

(** C5 (as the code has it). For a history of 10 stored turns whose 8 most
    recent contents are not empty, the request holds exactly 10 messages:
    the system message carrying the system prompt, the 8 most recent turns
    in their order, each as a role/content pair, and the user message
    carrying the new user message. *)
Theorem ten_turn_request (systemPrompt userMessage : value)
    (turns : list ChatMessage) :
  List.length turns = 10 ->
  Forall (fun m => msg_content m <> "") (slice_last 8 turns) ->
  exists request,
    build_messages E systemPrompt (map ChatMessage_value turns) userMessage
    = Ok request
    /\ request = {| role := "system"; content := systemPrompt |}
                 :: map ChatMessage_AiMessage (skipn 2 turns)
                 ++ [{| role := "user"; content := userMessage |}]
    /\ List.length (skipn 2 turns) = 8
    /\ List.length request = 10.
Proof.
  intros Hlen Hcontent.
  assert (Hslice : slice_last 8 turns = skipn 2 turns)
    by (unfold slice_last; rewrite Hlen; reflexivity).
  eexists. split; [apply build_messages_turns; exact Hcontent |].
  rewrite Hslice. split; [reflexivity |].
  assert (H8 : List.length (skipn 2 turns) = 8)
    by (rewrite length_skipn; lia).
  split; [exact H8 |].
  cbn [List.length]. rewrite length_app, length_map, H8. reflexivity.
Qed.

Lemma get_prop_truthy (m : value) (key : string) :
  truthy m = true -> get_prop E m key = Ok (prop E m key).
Proof.
  intros Hm. unfold prop.
  destruct m; try discriminate Hm; try reflexivity.
  simpl. destruct (lookup key fields); reflexivity.
Qed.

Lemma has_role_and_content_true (m : value) :
  has_role_and_content E m = true <->
  truthy m = true /\ truthy (prop E m "role") = true
  /\ truthy (prop E m "content") = true.
Proof.
  unfold has_role_and_content. rewrite !andb_true_iff. tauto.
Qed.

Lemma map_outcome_string_entries (l : list value) :
  (forall m, In m l ->
     has_role_and_content E m = true
     /\ exists r c, prop E m "role" = VStr r /\ prop E m "content" = VStr c) ->
  exists derived,
    map_outcome (to_AiMessage E) l = Ok derived
    /\ Forall2 (copied_from E) l derived.
Proof.
  induction l as [| m rest IH]; intros H.
  - exists []. split; [reflexivity | constructor].
  - destruct IH as (derived & Hmap & Hall).
    { intros x Hx. apply H. right. exact Hx. }
    destruct (H m (or_introl eq_refl)) as (Hkeep & r & c & Hr & Hc).
    apply has_role_and_content_true in Hkeep.
    destruct Hkeep as (Hm & Htr & Htc).
    rewrite Hr in Htr. rewrite Hc in Htc.
    apply truthy_string in Htr. apply truthy_string in Htc.
    exists ({| role := r; content := VStr c |} :: derived). split.
    + cbn [map_outcome]. unfold to_AiMessage at 1.
      rewrite !(get_prop_truthy m _ Hm), Hr, Hc.
      cbn [js_String obind]. rewrite Hmap. reflexivity.
    + constructor; [| exact Hall].
      unfold copied_from. simpl. repeat split; try assumption.
      exists c. split; [reflexivity | assumption].
Qed.

Lemma map_outcome_length {A B} (f : A -> outcome B) (l : list A) :
  forall l', map_outcome f l = Ok l' -> List.length l' = List.length l.
Proof.
  induction l as [| x rest IH]; intros l' H; simpl in H.
  - injection H as <-. reflexivity.
  - destruct (f x) as [y | m]; [| discriminate H].
    simpl in H. destruct (map_outcome f rest) as [ys | m]; [| discriminate H].
    simpl in H. injection H as <-. simpl. f_equal. apply IH. reflexivity.
Qed.

(** C10 (as the code has it). Of the 8 most recent history entries, one
    that is [null] or whose role or content is not truthy contributes no
    message, so the request may hold fewer history-derived messages than
    there are recent entries; a request that is assembled begins with the
    system message, ends with the new user message and holds one message
    for each entry kept.  When the role and content of the entries kept are
    strings, the request is assembled, and each history-derived message
    carries that role and content unchanged, neither being empty. *)
Theorem untruthy_entries_dropped :
  (forall (systemPrompt userMessage : value) (history : list value),
     let recent := slice_last 8 history in
     let kept := filter (has_role_and_content E) recent in
     (forall m, In m recent ->
        m = VNull \/ truthy (prop E m "role") = false
        \/ truthy (prop E m "content") = false ->
        ~ In m kept)
     /\ List.length kept <= Nat.min 8 (List.length history)
     /\ (forall request,
           build_messages E systemPrompt history userMessage = Ok request ->
           exists derived,
             request = {| role := "system"; content := systemPrompt |}
                       :: derived
                       ++ [{| role := "user"; content := userMessage |}]
             /\ List.length derived = List.length kept)
     /\ ((forall m, In m kept ->
            exists r c, prop E m "role" = VStr r
                        /\ prop E m "content" = VStr c) ->
         exists derived,
           build_messages E systemPrompt history userMessage
           = Ok ({| role := "system"; content := systemPrompt |}
                 :: derived
                 ++ [{| role := "user"; content := userMessage |}])
           /\ Forall2 (copied_from E) kept derived))
  /\ exists history,
       List.length (filter (has_role_and_content E) (slice_last 8 history))
       < Nat.min 8 (List.length history).
Proof.
  split.
  - intros systemPrompt userMessage history recent kept.
    split; [| split; [| split]].
    + intros m _ Hbad Hin.
      apply filter_In in Hin. destruct Hin as (_ & Hkeep).
      apply has_role_and_content_true in Hkeep.
      destruct Hkeep as (Hm & Hr & Hc).
      destruct Hbad as [-> | [Hbad | Hbad]].
      * discriminate Hm.
      * rewrite Hbad in Hr. discriminate Hr.
      * rewrite Hbad in Hc. discriminate Hc.
    + unfold kept, recent.
      rewrite <- slice_last_length.
      apply filter_length_le.
    + intros request Hrequest. unfold build_messages in Hrequest.
      fold recent in Hrequest. fold kept in Hrequest.
      destruct (map_outcome (to_AiMessage E) kept) as [derived | m] eqn:Hmap;
        [| discriminate Hrequest].
      cbn [obind] in Hrequest. injection Hrequest as <-.
      exists derived. split; [reflexivity |].
      apply (map_outcome_length _ _ _ Hmap).
    + intros Hstrings.
      destruct (map_outcome_string_entries kept) as (derived & Hmap & Hall).
      { intros m Hm. split; [| apply Hstrings; exact Hm].
        apply filter_In in Hm. apply Hm. }
      exists derived. split; [| exact Hall].
      unfold build_messages. fold recent. fold kept.
      rewrite Hmap. reflexivity.
  - exists [VNull]. simpl. lia.
Qed.

End Assembly.

(* ================================================================== *)
(** * Text coercion of the backend's answer *)
(* ================================================================== *)

Section Coercion.

Variable E : Engine.



End Coercion.

(* ================================================================== *)
(** * The session store *)
(* ================================================================== *)

Section Store.

Variable E : Engine.
Variable env : Env.

Hypothesis storage_works : forall n, storage_fault env n = None.

Lemma JSON_roundtrip_array (l : list value) :
  JSON_roundtrip (VArr l) = VArr (map JSON_element l).
Proof. reflexivity. Qed.

Lemma getState_works (w : World) :
  AdvisorState_fetch E env state_request w
  = (Ok (json_response 200
           (VObj [("stage", js_or (stored_stage w) (VStr "initial"));
                  ("messageCount",
                   array_length (parse_history (stored_history w)));
                  ("history", VArr (parse_history (stored_history w)))])),
     {| stored_history := stored_history w;
        stored_stage := stored_stage w;
        ticks := ticks w;
        storage_ops := S (S (storage_ops w));
        trace := trace w |}).
Proof.
  unfold AdvisorState_fetch. cbn [state_request pathname method].
  change ("/state" =? "/message")%string with false.
  change ("/state" =? "/state")%string with true.
  change ("GET" =? "GET")%string with true.
  cbn [andb].
  unfold AdvisorState_getState, try_catch, bind, ret,
    storage_get_history, storage_get_stage, storage_operation.
  rewrite storage_works. cbn. rewrite ?storage_works. reflexivity.
Qed.

(** Induction on values, through the arrays and objects they nest. *)
Lemma value_induction (P : value -> Prop) :
  P VUndefined -> P VNull -> (forall b, P (VBool b)) ->
  (forall q, P (VNum q)) -> (forall s, P (VStr s)) ->
  (forall items, Forall P items -> P (VArr items)) ->
  (forall fields, Forall (fun kv => P (snd kv)) fields -> P (VObj fields)) ->
  (forall name, P (VNative name)) ->
  forall v, P v.
Proof.
  intros Hu Hn Hb Hq Hs Ha Ho Hf.
  fix IH 1. intros [| | b | q | s | items | fields | name].
  - exact Hu.
  - exact Hn.
  - apply Hb.
  - apply Hq.
  - apply Hs.
  - apply Ha. induction items as [| x rest IHrest].
    + constructor.
    + constructor; [apply IH | exact IHrest].
  - apply Ho. induction fields as [| [k x] rest IHrest].
    + constructor.
    + constructor; [apply IH | exact IHrest].
  - apply Hf.
Qed.

Lemma JSON_roundtrip_serialisable (v : value) :
  not_serialisable v = false -> not_serialisable (JSON_roundtrip v) = false.
Proof. destruct v; simpl; intros H; try reflexivity; discriminate H. Qed.

Lemma JSON_element_serialisable (v : value) :
  not_serialisable (JSON_element v) = false.
Proof.
  unfold JSON_element. destruct (not_serialisable v) eqn:Hv.
  - reflexivity.
  - apply JSON_roundtrip_serialisable. exact Hv.
Qed.

(** A value that has crossed a JSON boundary crosses the next one
    unchanged. *)
Lemma JSON_roundtrip_idempotent (v : value) :
  JSON_roundtrip (JSON_roundtrip v) = JSON_roundtrip v.
Proof.
  induction v as [| | b | q | s | items IH | fields IH | name]
    using value_induction; try reflexivity.
  - simpl. f_equal. rewrite map_map.
    induction IH as [| x rest Hx _ IHrest]; [reflexivity |].
    simpl. f_equal; [| exact IHrest].
    destruct (not_serialisable x) eqn:Hnx; [reflexivity |].
    rewrite (JSON_roundtrip_serialisable x Hnx). exact Hx.
  - simpl. f_equal.
    induction IH as [| [k x] rest Hx _ IHrest]; [reflexivity |].
    simpl in Hx.
    destruct (not_serialisable x) eqn:Hnx; [exact IHrest |].
    cbn [not_serialisable]. rewrite (JSON_roundtrip_serialisable x Hnx).
    rewrite Hx. f_equal. exact IHrest.
Qed.

Lemma JSON_element_idempotent (v : value) :
  JSON_element (JSON_element v) = JSON_element v.
Proof.
  unfold JSON_element at 2 3. destruct (not_serialisable v) eqn:Hv.
  - reflexivity.
  - unfold JSON_element.
    rewrite (JSON_roundtrip_serialisable v Hv).
    apply JSON_roundtrip_idempotent.
Qed.

(** The turn [handleMessage] pushes. *)
Lemma JSON_element_turn (m : ChatMessage) :
  JSON_element (ChatMessage_value m) = ChatMessage_value m.
Proof. reflexivity. Qed.

Lemma handleMessage_works (w : World)
    (userMessage assistantMessage nextStage : string) :
  let history :=
    parse_history (stored_history w)
    ++ [ChatMessage_value {| msg_role := user; msg_content := userMessage;
                             msg_timestamp := Date_now env (ticks w) |};
        ChatMessage_value {| msg_role := assistant;
                             msg_content := assistantMessage;
                             msg_timestamp := Date_now env (S (ticks w)) |}] in
  AdvisorState_fetch E env
    (message_request (VStr userMessage) (VStr assistantMessage)
       (VStr nextStage)) w
  = (Ok (json_response 200
           (VObj [("success", VBool true);
                  ("messageCount", array_length history);
                  ("stage", VStr nextStage)])),
     {| stored_history := Some (map JSON_element history);
        stored_stage := VStr nextStage;
        ticks := S (S (ticks w));
        storage_ops := S (S (S (storage_ops w)));
        trace := trace w |}).
Proof.
  intros history.
  unfold AdvisorState_fetch, message_request, json_request.
  cbn [pathname method].
  change ("/message" =? "/message")%string with true.
  change ("POST" =? "POST")%string with true.
  cbn [andb].
  unfold AdvisorState_handleMessage, try_catch, bind, ret, lift,
    storage_get_history, storage_put_history, storage_put_stage,
    storage_operation, Date_now_call.
  cbn. rewrite ?storage_works. cbn. rewrite ?storage_works. cbn.
  rewrite ?storage_works. cbn.
  rewrite <- !app_assoc. reflexivity.
Qed.

Lemma read_history_getState (stage : value) (history : list value) :
  read_history
    (json_response 200
       (VObj [("stage", stage);
              ("messageCount", array_length history);
              ("history", VArr history)]))
  = Some (map JSON_element history).
Proof.
  unfold read_history, json_response. cbn [resp_body JSON_roundtrip].
  destruct (not_serialisable stage); reflexivity.
Qed.

Lemma read_stage_getState (stage : string) (history : list value) :
  stage <> "" ->
  read_stage
    (json_response 200
       (VObj [("stage", js_or (VStr stage) (VStr "initial"));
              ("messageCount", array_length history);
              ("history", VArr history)]))
  = Some (VStr stage).
Proof.
  intros Hstage. unfold js_or.
  apply truthy_string in Hstage. rewrite Hstage. reflexivity.
Qed.

Lemma stage_label_not_empty (s : Stage) : stage_label s <> "".
Proof. destruct s; discriminate. Qed.

(** C9. Whatever the session holds, a write of a user message, an assistant
    message and a next stage followed by a read gives back the history read
    before the write with two entries appended, a user turn carrying the
    user message and then an assistant turn carrying the assistant message,
    and the stage that was written. *)
Theorem write_then_read (w : World) (userMessage assistantMessage : string)
    (next : Stage) :
  exists r0 w0 r1 w1 r2 w2 before t1 t2,
    AdvisorState_fetch E env state_request w = (Ok r0, w0)
    /\ read_history r0 = Some before
    /\ AdvisorState_fetch E env
         (message_request (VStr userMessage) (VStr assistantMessage)
            (VStr (stage_label next))) w0 = (Ok r1, w1)
    /\ status r1 = 200%Z
    /\ AdvisorState_fetch E env state_request w1 = (Ok r2, w2)
    /\ read_stage r2 = Some (VStr (stage_label next))
    /\ read_history r2
       = Some (before
               ++ [ChatMessage_value {| msg_role := user;
                                        msg_content := userMessage;
                                        msg_timestamp := t1 |};
                   ChatMessage_value {| msg_role := assistant;
                                        msg_content := assistantMessage;
                                        msg_timestamp := t2 |}])
    /\ List.length
         (before
          ++ [ChatMessage_value {| msg_role := user;
                                   msg_content := userMessage;
                                   msg_timestamp := t1 |};
              ChatMessage_value {| msg_role := assistant;
                                   msg_content := assistantMessage;
                                   msg_timestamp := t2 |}])
       = List.length before + 2.
Proof.
  do 9 eexists.
  split; [apply getState_works |].
  split; [apply read_history_getState |].
  split; [apply handleMessage_works |].
  split; [reflexivity |].
  split; [apply getState_works |].
  cbn [stored_history stored_stage parse_history].
  split; [apply read_stage_getState, stage_label_not_empty |].
  split.
  - rewrite read_history_getState.
    rewrite map_map, map_app.
    rewrite (map_ext _ _ JSON_element_idempotent). reflexivity.
  - rewrite length_app. reflexivity.
Qed.

(** The round trip owes the stage to its not being empty: the empty string
    is stored as it is and read back as [initial]. *)
Lemma write_then_read_empty_stage (w : World)
    (userMessage assistantMessage : string) :
  exists r1 w1 r2 w2,
    AdvisorState_fetch E env
      (message_request (VStr userMessage) (VStr assistantMessage) (VStr "")) w
    = (Ok r1, w1)
    /\ stored_stage w1 = VStr ""
    /\ AdvisorState_fetch E env state_request w1 = (Ok r2, w2)
    /\ read_stage r2 = Some (VStr "initial").
Proof.
  do 4 eexists.
  split; [apply handleMessage_works |].
  split; [reflexivity |].
  split; [apply getState_works |].
  reflexivity.
Qed.

End Store.

(* ================================================================== *)
(** * One chat turn *)
(* ================================================================== *)

Section Chat.

Variable E : Engine.
Variable env : Env.

Lemma silent_ret {A} (a : A) : silent (ret a).
Proof. intros w. reflexivity. Qed.

Lemma silent_lift {A} (c : outcome A) : silent (lift c).
Proof. intros w. reflexivity. Qed.

Lemma silent_bind {A B} (c : M A) (k : A -> M B) :
  silent c -> (forall a, silent (k a)) -> silent (bind c k).
Proof.
  intros Hc Hk w. unfold bind. specialize (Hc w).
  destruct (c w) as [[a | m] w1]; simpl in *.
  - rewrite (Hk a w1). exact Hc.
  - exact Hc.
Qed.

Lemma silent_try_catch {A} (c : M A) (handler : string -> M A) :
  silent c -> (forall m, silent (handler m)) -> silent (try_catch c handler).
Proof.
  intros Hc Hh w. unfold try_catch. specialize (Hc w).
  destruct (c w) as [[a | m] w1]; simpl in *.
  - exact Hc.
  - rewrite (Hh m w1). exact Hc.
Qed.

Lemma total_try_catch {A} (c : M A) (handler : string -> M A) :
  (forall m, total (handler m)) -> total (try_catch c handler).
Proof.
  intros Hh w. unfold try_catch.
  destruct (c w) as [[a | m] w1].
  - exists a. reflexivity.
  - apply Hh.
Qed.

Lemma total_ret {A} (a : A) : total (ret a).
Proof. intros w. exists a. reflexivity. Qed.

Lemma silent_storage_operation {A} (action : World -> A * World) :
  (forall w, trace (snd (action w)) = trace w) ->
  silent (storage_operation env action).
Proof.
  intros Haction w. unfold storage_operation.
  destruct (storage_fault env (storage_ops w)).
  - reflexivity.
  - match goal with |- context [action ?x] =>
      specialize (Haction x); destruct (action x) as [a w2] end.
    exact Haction.
Qed.

Lemma silent_Date_now_call : silent (Date_now_call env).
Proof. intros w. reflexivity. Qed.

Ltac silent_steps :=
  repeat first
    [ apply silent_ret | apply silent_lift | apply silent_Date_now_call
    | apply silent_storage_operation; intros; reflexivity
    | apply silent_try_catch; [| intros ]
    | apply silent_bind; [| intros ] ].

Lemma silent_getState : silent (AdvisorState_getState env).
Proof. unfold AdvisorState_getState. silent_steps. Qed.

Lemma silent_handleMessage (request : Request) :
  silent (AdvisorState_handleMessage E env request).
Proof.
  unfold AdvisorState_handleMessage, storage_get_history,
    storage_put_history, storage_put_stage.
  silent_steps.
Qed.

(** The durable object answers every request and calls nobody. *)
Lemma AdvisorState_fetch_answers (request : Request) (w : World) :
  exists r w',
    AdvisorState_fetch E env request w = (Ok r, w')
    /\ trace w' = trace w.
Proof.
  assert (Hsilent : silent (AdvisorState_fetch E env request)).
  { unfold AdvisorState_fetch.
    destruct (_ && _); [apply silent_handleMessage |].
    destruct (_ && _); [apply silent_getState | apply silent_ret]. }
  assert (Htotal : total (AdvisorState_fetch E env request)).
  { unfold AdvisorState_fetch.
    destruct (_ && _).
    - apply total_try_catch. intros m. apply total_ret.
    - destruct (_ && _).
      + apply total_try_catch. intros m. apply total_ret.
      + apply total_ret. }
  specialize (Hsilent w). destruct (Htotal w) as (r & Hr).
  destruct (AdvisorState_fetch E env request w) as [res w'].
  simpl in *. subst res. exists r, w'. split; [reflexivity | exact Hsilent].
Qed.

Lemma destructure_defined (v : value) (key : string) :
  v <> VNull -> v <> VUndefined ->
  destructure E v key = Ok (prop E v key).
Proof.
  intros Hnull Hundef. unfold prop.
  destruct v; try reflexivity; try contradiction.
  simpl. destruct (lookup key fields); reflexivity.
Qed.

(** C7 (as the code has it). A request whose body parses to a value other
    than [null] and whose [sessionId] or [userMessage] is missing or falsy
    is answered with status 400 and
    [{error: "sessionId and userMessage required"}]; the world is left as
    it was: no call to the session store or to the backend, no change of
    the session.  A request that has no JSON body, or whose body is [null],
    is answered with status 500 and the message of the error thrown, the
    world again left as it was. *)
Theorem invalid_input_rejected (request : Request) (w : World) :
  (forall parsed,
     req_body request = Some parsed ->
     parsed <> VNull -> parsed <> VUndefined ->
     truthy (prop E parsed "sessionId") = false
     \/ truthy (prop E parsed "userMessage") = false ->
     handleChat E env request w
     = (Ok (json_response 400
              (VObj [("error", VStr "sessionId and userMessage required")])),
        w))
  /\ (req_body request = None \/ req_body request = Some VNull ->
      exists message,
        handleChat E env request w = (Ok (error_response message), w)).
Proof.
  split.
  - intros parsed Hbody Hnull Hundef Hmissing.
    unfold handleChat, try_catch, bind, lift, Request_json.
    rewrite Hbody.
    rewrite !(destructure_defined parsed _ Hnull Hundef).
    destruct Hmissing as [H | H]; rewrite H.
    + reflexivity.
    + rewrite orb_true_r. reflexivity.
  - intros [Hbody | Hbody];
      unfold handleChat, try_catch, bind, lift, Request_json;
      rewrite Hbody; eexists; reflexivity.
Qed.

Lemma cons_app_tail {A} (x : A) (new rest tail : list A) :
  new ++ tail = x :: rest ++ tail -> new = x :: rest.
Proof.
  intros H. apply (app_inv_tail tail). rewrite H. reflexivity.
Qed.

(** A call to the session store is recorded; it is either rejected, or
    answered by the durable object. *)
Lemma doStub_fetch_cases (request : Request) (w : World) :
  exists result w1,
    doStub_fetch E env request w = (result, w1)
    /\ trace w1 = StubFetch request :: trace w
    /\ match stub_fault env request with
       | Some m => result = Throw m
       | None => exists r, result = Ok r
       end.
Proof.
  unfold doStub_fetch. destruct (stub_fault env request) as [m |].
  - eexists _, _. split; [reflexivity |]. split; reflexivity.
  - match goal with |- context [AdvisorState_fetch E env request ?x] =>
      destruct (AdvisorState_fetch_answers request x) as (r & w1 & Hr & Ht)
    end.
    exists (Ok r), w1. split; [exact Hr |]. split; [exact Ht |].
    exists r. reflexivity.
Qed.

Lemma AI_run_trace (model : string) (options : AiOptions) (w : World) :
  exists w1,
    AI_run env model options w = (ai_run env model options, w1)
    /\ trace w1 = AiRun model options :: trace w.
Proof. eexists. split; reflexivity. Qed.

Ltac no_write_yet Hrun Htrace Hpath :=
  inversion Hrun; subst;
  repeat match goal with
         | H : trace _ = _ :: trace _ |- _ => rewrite H in Htrace
         end;
  first
    [ apply (cons_app_tail _ []) in Htrace; discriminate Htrace
    | apply (cons_app_tail _ [_]) in Htrace;
      injection Htrace as Hsaved _; inversion Hsaved; subst;
      discriminate Hpath
    | apply (cons_app_tail _ [_; _]) in Htrace; discriminate Htrace ].

(** C2 (as the code has it). When the latest call a chat turn makes is the
    write to the session store and that call is rejected (the store cannot
    be reached), the turn is answered with status 500 and the message of
    the rejection, not with the generated reply. *)
Theorem rejected_write_surfaces (request : Request) (w w' : World)
    (result : outcome Response) (saved : Request) (earlier : list event)
    (message : string) :
  handleChat E env request w = (result, w') ->
  trace w' = StubFetch saved :: earlier ++ trace w ->
  pathname saved = "/message" ->
  stub_fault env saved = Some message ->
  result = Ok (error_response message).
Proof.
  intros Hrun Htrace Hpath Hfault.
  unfold handleChat, try_catch, bind, lift in Hrun.
  destruct (Request_json E request) as [parsed | m0];
    [| no_write_yet Hrun Htrace Hpath].
  destruct (destructure E parsed "sessionId") as [sessionId | m0];
    [| no_write_yet Hrun Htrace Hpath].
  destruct (destructure E parsed "userMessage") as [userMessage | m0];
    [| no_write_yet Hrun Htrace Hpath].
  destruct (negb (truthy sessionId) || negb (truthy userMessage));
    [no_write_yet Hrun Htrace Hpath |].
  match type of Hrun with context [doStub_fetch E env ?r w] =>
    destruct (doStub_fetch_cases r w) as (res1 & w1 & Hread & Ht1 & _)
  end.
  rewrite Hread in Hrun.
  destruct res1 as [stateRes | m0]; [| no_write_yet Hrun Htrace Hpath].
  destruct (Response_json E stateRes) as [sessionState | m0];
    [| no_write_yet Hrun Htrace Hpath].
  destruct (get_prop E sessionState "stage") as [stage0 | m0];
    [| no_write_yet Hrun Htrace Hpath].
  destruct (get_prop E sessionState "history") as [history0 | m0];
    [| no_write_yet Hrun Htrace Hpath].
  destruct (DiagnosisWorkflow_run E _) as [workflowResult | m0];
    [| no_write_yet Hrun Htrace Hpath].
  destruct (build_messages E _ _ _) as [msgs | m0];
    [| no_write_yet Hrun Htrace Hpath].
  match type of Hrun with context [AI_run env ?m ?o w1] =>
    destruct (AI_run_trace m o w1) as (w2 & Hai & Ht2)
  end.
  rewrite Hai in Hrun.
  destruct (ai_run env _ _) as [aiResponse | m0];
    [| no_write_yet Hrun Htrace Hpath].
  destruct (coerce_response E aiResponse) as [assistantMessage | m0];
    [| no_write_yet Hrun Htrace Hpath].
  match type of Hrun with context [doStub_fetch E env ?r w2] =>
    destruct (doStub_fetch_cases r w2) as (res3 & w3 & Hwrite & Ht3 & Hres3)
  end.
  rewrite Hwrite in Hrun.
  assert (Hsaved : saved = message_request userMessage
            (VStr assistantMessage)
            (VStr (stage_label (nextStage workflowResult)))).
  { assert (Hw' : w' = w3) by (destruct res3; inversion Hrun; reflexivity).
    subst w'. rewrite Ht3, Ht2, Ht1 in Htrace.
    apply (cons_app_tail _ [_; _; _]) in Htrace.
    injection Htrace as Hsaved _. inversion Hsaved. reflexivity. }
  rewrite <- Hsaved in Hres3. rewrite Hfault in Hres3. subst res3.
  inversion Hrun. reflexivity.
Qed.

End Chat.

(* ================================================================== *)
(** * The theorems at work on concrete sessions *)
(* ================================================================== *)

(** A fresh session: the first turn is answered from stage [initial], and
    leaves a history of two entries and the stage [initial] behind. *)
Lemma fresh_session_first_turn :
  let run := handleChat sample_engine (echo_env sensor_reply)
               (chat_request (VStr "s1") (VStr "my line follower oscillates"))
               fresh_world in
  fst run = Ok (json_response 200
                  (VObj [("message", VStr "Check the sensor spacing.");
                         ("stage", VStr "initial");
                         ("sessionId", VStr "s1")]))
  /\ stored_stage (snd run) = VStr "initial"
  /\ stored_history (snd run)
     = Some [ChatMessage_value (turn user "my line follower oscillates" 0);
             ChatMessage_value (turn assistant "Check the sensor spacing." 1)].
Proof. vm_compute. repeat split. Qed.

(** Three turns of one session: the second is answered with stage
    [diagnostic], the third with stage [solution]. *)
Lemma three_turn_session :
  let chat := handleChat sample_engine (echo_env sensor_reply) in
  let w1 := snd (chat (chat_request (VStr "s1") (VStr "it oscillates"))
                   fresh_world) in
  let w2 := snd (chat (chat_request (VStr "s1") (VStr "two sensors")) w1) in
  let w3 := snd (chat (chat_request (VStr "s1") (VStr "about 3 cm")) w2) in
  stored_stage w1 = VStr "initial"
  /\ stored_stage w2 = VStr "diagnostic"
  /\ stored_stage w3 = VStr "solution"
  /\ option_map (@List.length value) (stored_history w3) = Some 6.
Proof. vm_compute. repeat split. Qed.

Lemma determineNextStage_decision_table_witness :
  determineNextStage sample_engine (VStr "initial")
    (VStr "my line follower oscillates") [] = Ok initial
  /\ determineNextStage sample_engine (VStr "diagnostic")
       (VStr "my line follower oscillates")
       (map ChatMessage_value ten_turns) = Ok solution.
Proof.
  split.
  - apply (proj1 (determineNextStage_decision_table sample_engine
                    "my line follower oscillates" [])).
    simpl. lia.
  - apply (proj1 (proj2 (proj2 (proj2
             (determineNextStage_decision_table sample_engine
                "my line follower oscillates"
                (map ChatMessage_value ten_turns)))))).
    simpl. lia.
Defined.

Lemma determineNextStage_ignores_message_witness :
  determineNextStage sample_engine (VStr "diagnostic")
    (VStr "the root cause is the battery") [VNull; VNull]
  = determineNextStage sample_engine (VStr "diagnostic")
      (VStr "hello") (map ChatMessage_value (firstn 2 ten_turns)).
Proof.
  apply (determineNextStage_ignores_message sample_engine).
  reflexivity.
Defined.

(** An unrecognised current stage is not treated as [initial]: on the same
    message and history the policy returns the same prompt and another next
    stage, [solution] where [initial] gives [initial]. *)
Lemma unrecognised_stage_counterexample :
  exists unknown_out initial_out,
    DiagnosisWorkflow_run sample_engine
      {| in_sessionId := VStr "s1"; in_userMessage := VStr "hi";
         in_conversationHistory := []; in_currentStage := VStr "unknown" |}
    = Ok unknown_out
    /\ DiagnosisWorkflow_run sample_engine
         {| in_sessionId := VStr "s1"; in_userMessage := VStr "hi";
            in_conversationHistory := [];
            in_currentStage := VStr "initial" |}
       = Ok initial_out
    /\ systemPrompt unknown_out = systemPrompt initial_out
    /\ nextStage unknown_out = solution
    /\ nextStage initial_out = initial
    /\ nextStage unknown_out <> nextStage initial_out.
Proof.
  eexists _, _. split; [reflexivity |]. split; [reflexivity |].
  repeat split. discriminate.
Qed.

(** A stage named like a member of [Object.prototype] does not even get the
    prompt of [initial]. *)
Lemma inherited_name_prompt :
  getSystemPromptForStage sample_engine (VStr "constructor")
  = Ok (VNative "constructor").
Proof. reflexivity. Qed.

Lemma stage_progression_monotone_witness :
  session_stages sample_engine initial four_turn_session
  = [initial; initial; diagnostic; solution; solution]
  /\ nth 4 (session_stages sample_engine initial four_turn_session) initial
     = solution.
Proof.
  split; [reflexivity |].
  apply (proj2 (proj2 (stage_progression_monotone sample_engine
                         four_turn_session)) 3 4).
  - lia.
  - simpl. lia.
  - reflexivity.
Defined.

Lemma ten_turn_request_witness :
  exists request,
    build_messages sample_engine (VStr prompt_solution)
      (map ChatMessage_value ten_turns) (VStr "thanks") = Ok request
    /\ request = {| role := "system"; content := VStr prompt_solution |}
                 :: map ChatMessage_AiMessage (skipn 2 ten_turns)
                 ++ [{| role := "user"; content := VStr "thanks" |}]
    /\ List.length (skipn 2 ten_turns) = 8
    /\ List.length request = 10.
Proof.
  apply (ten_turn_request sample_engine).
  - reflexivity.
  - repeat constructor; discriminate.
Defined.

(** Ten turns, one recent turn empty: nine messages. *)
Lemma ten_turn_request_counterexample :
  List.length ten_turns_one_blank = 10
  /\ exists request,
       build_messages sample_engine (VStr prompt_solution)
         (map ChatMessage_value ten_turns_one_blank) (VStr "thanks")
       = Ok request
       /\ List.length request = 9.
Proof.
  split; [reflexivity |].
  eexists. split; reflexivity.
Qed.

Lemma untruthy_entries_dropped_witness :
  exists derived,
    build_messages sample_engine (VStr prompt_initial)
      [VNull; ChatMessage_value (turn assistant "" 1);
       ChatMessage_value (turn user "two infrared sensors" 2)]
      (VStr "about 3 cm")
    = Ok ({| role := "system"; content := VStr prompt_initial |}
          :: derived
          ++ [{| role := "user"; content := VStr "about 3 cm" |}])
    /\ Forall2 (copied_from sample_engine)
         [ChatMessage_value (turn user "two infrared sensors" 2)] derived.
Proof.
  apply (proj2 (proj2 (proj2
           (proj1 (untruthy_entries_dropped sample_engine)
              (VStr prompt_initial) (VStr "about 3 cm")
              [VNull; ChatMessage_value (turn assistant "" 1);
               ChatMessage_value (turn user "two infrared sensors" 2)])))).
  simpl. intros m [<- | []].
  exists "user", "two infrared sensors". split; reflexivity.
Defined.

(** A kept entry whose role is an empty array yields a message whose role
    is the empty string. *)
Lemma array_role_counterexample :
  has_role_and_content sample_engine entry_with_array_role = true
  /\ build_messages sample_engine (VStr prompt_initial)
       [entry_with_array_role] (VStr "hi")
     = Ok [ {| role := "system"; content := VStr prompt_initial |};
            {| role := ""; content := VStr "x" |};
            {| role := "user"; content := VStr "hi" |} ].
Proof. split; reflexivity. Qed.


Lemma write_then_read_witness :
  exists r0 w0 r1 w1 r2 w2 before t1 t2,
    AdvisorState_fetch sample_engine (echo_env sensor_reply) state_request
      fresh_world = (Ok r0, w0)
    /\ read_history r0 = Some before
    /\ AdvisorState_fetch sample_engine (echo_env sensor_reply)
         (message_request (VStr "my line follower oscillates")
            (VStr "Which sensors does it use?")
            (VStr (stage_label initial))) w0 = (Ok r1, w1)
    /\ status r1 = 200%Z
    /\ AdvisorState_fetch sample_engine (echo_env sensor_reply) state_request
         w1 = (Ok r2, w2)
    /\ read_stage r2 = Some (VStr (stage_label initial))
    /\ read_history r2
       = Some (before
               ++ [ChatMessage_value
                     {| msg_role := user;
                        msg_content := "my line follower oscillates";
                        msg_timestamp := t1 |};
                   ChatMessage_value
                     {| msg_role := assistant;
                        msg_content := "Which sensors does it use?";
                        msg_timestamp := t2 |}])
    /\ List.length
         (before
          ++ [ChatMessage_value
                {| msg_role := user;
                   msg_content := "my line follower oscillates";
                   msg_timestamp := t1 |};
              ChatMessage_value
                {| msg_role := assistant;
                   msg_content := "Which sensors does it use?";
                   msg_timestamp := t2 |}])
       = List.length before + 2.
Proof.
  apply (write_then_read sample_engine (echo_env sensor_reply)).
  intros n. reflexivity.
Defined.

Lemma invalid_input_rejected_witness :
  handleChat sample_engine (echo_env sensor_reply)
    (chat_request (VStr "s1") (VStr "")) fresh_world
  = (Ok (json_response 400
           (VObj [("error", VStr "sessionId and userMessage required")])),
     fresh_world).
Proof.
  apply (proj1 (invalid_input_rejected sample_engine (echo_env sensor_reply)
                  (chat_request (VStr "s1") (VStr "")) fresh_world)
           (VObj [("sessionId", VStr "s1"); ("userMessage", VStr "")])).
  - reflexivity.
  - discriminate.
  - discriminate.
  - right. reflexivity.
Defined.

(** The body [null]: both fields are missing, the answer is not the 400. *)
Lemma null_body_counterexample :
  exists r,
    handleChat sample_engine (echo_env sensor_reply)
      {| pathname := "/api/chat"; method := "POST"; req_body := Some VNull |}
      fresh_world
    = (Ok r, fresh_world)
    /\ status r = 500%Z
    /\ resp_body r
       <> JsonBody (VObj [("error",
                           VStr "sessionId and userMessage required")]).
Proof.
  eexists. split; [reflexivity |]. split; [reflexivity | discriminate].
Qed.

Lemma rejected_write_surfaces_witness :
  fst (handleChat sample_engine unreachable_on_write
         (chat_request (VStr "s1") (VStr "my line follower oscillates"))
         fresh_world)
  = Ok (error_response "Network connection lost.").
Proof.
  apply (rejected_write_surfaces sample_engine unreachable_on_write
           (chat_request (VStr "s1") (VStr "my line follower oscillates"))
           fresh_world
           (snd (handleChat sample_engine unreachable_on_write
                   (chat_request (VStr "s1")
                      (VStr "my line follower oscillates")) fresh_world))
           _
           (message_request (VStr "my line follower oscillates")
              (VStr "Check the sensor spacing.") (VStr "initial"))
           (tl (trace
                  (snd (handleChat sample_engine unreachable_on_write
                          (chat_request (VStr "s1")
                             (VStr "my line follower oscillates"))
                          fresh_world))))).
  - reflexivity.
  - reflexivity.
  - reflexivity.
  - reflexivity.
Defined.

(** The store is reached and fails inside: the turn is answered with the
    reply and status 200, and nothing has been stored. *)
Lemma failed_put_counterexample :
  let run := handleChat sample_engine put_fails
               (chat_request (VStr "s1") (VStr "my line follower oscillates"))
               fresh_world in
  storage_fault put_fails 3 = Some "storage put failed"
  /\ fst run = Ok (json_response 200
                     (VObj [("message", VStr "Check the sensor spacing.");
                            ("stage", VStr "initial");
                            ("sessionId", VStr "s1")]))
  /\ stored_history (snd run) = None
  /\ stored_stage (snd run) = VUndefined.
Proof. vm_compute. repeat split. Qed.

(* ================================================================== *)
(** * More on the stage policy *)
(* ================================================================== *)

Section PolicyMore.

Variable E : Engine.

(** X1. The prompt is never missing: each recognised stage gets its own text,
    every other stage name that [Object.prototype] does not define gets the
    text of [initial], and whatever the stage, the prompt handed back is
    truthy. *)
Theorem getSystemPromptForStage_fallback :
  (forall s, getSystemPromptForStage E (VStr (stage_label s))
             = Ok (VStr (stage_prompt s)))
  /\ (forall stage,
        stage <> "initial" -> stage <> "diagnostic" -> stage <> "solution" ->
        Object_prototype_get stage = VUndefined ->
        getSystemPromptForStage E (VStr stage) = Ok (VStr prompt_initial))
  /\ (forall stage key,
        js_String E stage = Ok key ->
        exists p, getSystemPromptForStage E stage = Ok p /\ truthy p = true).
Proof.
  split; [| split].
  - intros []; reflexivity.
  - intros stage Hi Hd Hs Hproto.
    unfold getSystemPromptForStage. cbn [js_String obind].
    unfold literal_get at 1. unfold prompts at 1. cbn [lookup].
    apply String.eqb_neq in Hi, Hd, Hs. rewrite Hi, Hd, Hs, Hproto.
    reflexivity.
  - intros stage key Hkey. unfold getSystemPromptForStage.
    rewrite Hkey. cbn [obind]. eexists. split; [reflexivity |].
    unfold js_or. destruct (truthy (literal_get prompts key)) eqn:Hp.
    + exact Hp.
    + reflexivity.
Qed.

Lemma getSystemPromptForStage_label (s : Stage) :
  getSystemPromptForStage E (VStr (stage_label s))
  = Ok (VStr (stage_prompt s)).
Proof. destruct s; reflexivity. Qed.

Lemma stage_prompt_injective (a b : Stage) :
  stage_prompt a = stage_prompt b -> a = b.
Proof. destruct a, b; intros H; try reflexivity; discriminate H. Qed.

(** X2. [run] picks the prompt by the current stage, not by the stage it
    returns, and passes the session id through: on the turn that moves the
    session to a new stage the model is still instructed for the old one. *)
Theorem run_prompts_for_current_stage (s : Stage) (sessionId : value)
    (userMessage : string) (history : list value) :
  exists next,
    DiagnosisWorkflow_run E
      {| in_sessionId := sessionId; in_userMessage := VStr userMessage;
         in_conversationHistory := history;
         in_currentStage := VStr (stage_label s) |}
    = Ok {| systemPrompt := VStr (stage_prompt s); nextStage := next;
            out_sessionId := sessionId |}
    /\ stage_le s next
    /\ (next <> s -> VStr (stage_prompt s) <> VStr (stage_prompt next)).
Proof.
  destruct (determineNextStage_forward E s userMessage history)
    as (next & Hnext & Hle).
  exists next. split; [| split].
  - unfold DiagnosisWorkflow_run. cbn [in_currentStage in_userMessage
      in_conversationHistory in_sessionId].
    rewrite getSystemPromptForStage_label. cbn [obind].
    rewrite Hnext. reflexivity.
  - exact Hle.
  - intros Hneq Heq. injection Heq as Heq.
    apply stage_prompt_injective in Heq. congruence.
Qed.

End PolicyMore.

(* ================================================================== *)
(** * More on the generation request *)
(* ================================================================== *)

Section AssemblyMore.

Variable E : Engine.

(** X3. Whatever the history, a request that is assembled holds at least the
    system message and the user message and at most 8 messages in between:
    between 2 and 10 messages, the first the system message and the last
    the user message. *)
Theorem build_messages_bounds (systemPrompt userMessage : value)
    (history : list value) (request : list AiMessage) :
  build_messages E systemPrompt history userMessage = Ok request ->
  2 <= List.length request <= 10
  /\ List.length request <= List.length history + 2
  /\ hd_error request = Some {| role := "system"; content := systemPrompt |}
  /\ last request {| role := "system"; content := systemPrompt |}
     = {| role := "user"; content := userMessage |}.
Proof.
  intros H. unfold build_messages in H.
  destruct (map_outcome _ _) as [derived | m] eqn:Hmap; [| discriminate H].
  cbn [obind] in H. injection H as <-.
  apply map_outcome_length in Hmap.
  pose proof (filter_length_le (has_role_and_content E)
                (slice_last 8 history)) as Hle.
  rewrite slice_last_length in Hle.
  cbn [List.length hd_error]. rewrite length_app. cbn [List.length].
  repeat split; try lia.
  change ({| role := "system"; content := systemPrompt |}
          :: derived ++ [{| role := "user"; content := userMessage |}])
    with (({| role := "system"; content := systemPrompt |} :: derived)
          ++ [{| role := "user"; content := userMessage |}]).
  apply last_last.
Qed.

End AssemblyMore.

(* ================================================================== *)
(** * More on the session store *)
(* ================================================================== *)

Section StoreMore.

Variable E : Engine.
Variable env : Env.

Lemma same_store_refl (w : World) : same_store w w.
Proof. split; reflexivity. Qed.

Lemma same_store_trans (w1 w2 w3 : World) :
  same_store w1 w2 -> same_store w2 w3 -> same_store w1 w3.
Proof. intros [H1 H2] [H3 H4]. split; congruence. Qed.

Lemma keeps_store_ret {A} (a : A) : keeps_store (ret a).
Proof. intros w. apply same_store_refl. Qed.

Lemma keeps_store_lift {A} (c : outcome A) : keeps_store (lift c).
Proof. intros w. apply same_store_refl. Qed.

Lemma keeps_store_bind {A B} (c : M A) (k : A -> M B) :
  keeps_store c -> (forall a, keeps_store (k a)) -> keeps_store (bind c k).
Proof.
  intros Hc Hk w. unfold bind. specialize (Hc w).
  destruct (c w) as [[a | m] w1]; simpl in *.
  - eapply same_store_trans; [exact Hc | apply Hk].
  - exact Hc.
Qed.

Lemma keeps_store_try_catch {A} (c : M A) (handler : string -> M A) :
  keeps_store c -> (forall m, keeps_store (handler m)) ->
  keeps_store (try_catch c handler).
Proof.
  intros Hc Hh w. unfold try_catch. specialize (Hc w).
  destruct (c w) as [[a | m] w1]; simpl in *.
  - exact Hc.
  - eapply same_store_trans; [exact Hc | apply Hh].
Qed.

Lemma keeps_store_get_history : keeps_store (storage_get_history env).
Proof.
  intros w. unfold storage_get_history, storage_operation.
  destruct (storage_fault env (storage_ops w)); split; reflexivity.
Qed.

Lemma keeps_store_get_stage : keeps_store (storage_get_stage env).
Proof.
  intros w. unfold storage_get_stage, storage_operation.
  destruct (storage_fault env (storage_ops w)); split; reflexivity.
Qed.

Lemma keeps_store_getState : keeps_store (AdvisorState_getState env).
Proof.
  unfold AdvisorState_getState.
  apply keeps_store_try_catch; [| intros; apply keeps_store_ret].
  apply keeps_store_bind; [apply keeps_store_get_history | intros].
  apply keeps_store_bind; [apply keeps_store_get_stage | intros].
  apply keeps_store_ret.
Qed.

(** X5. [getState] only reads.  Whatever fails, it leaves the stored history
    and stage as they are; it answers 500 with the message of the first
    read that fails and 200 otherwise, and a store that holds neither key
    reads as stage [initial] with no messages. *)
Theorem getState_only_reads (w : World) :
  let run := AdvisorState_fetch E env state_request w in
  same_store w (snd run)
  /\ trace (snd run) = trace w
  /\ match storage_fault env (storage_ops w),
           storage_fault env (S (storage_ops w)) with
     | Some m, _ => fst run = Ok (error_response m)
     | None, Some m => fst run = Ok (error_response m)
     | None, None =>
         exists r, fst run = Ok r /\ status r = 200%Z
         /\ (stored_history w = None -> stored_stage w = VUndefined ->
             resp_body r
             = JsonBody (VObj [("stage", VStr "initial");
                               ("messageCount", VNum (inject_Z 0));
                               ("history", VArr [])]))
     end.
Proof.
  intros run. split; [| split].
  - apply keeps_store_getState.
  - apply (silent_getState env).
  - unfold run, AdvisorState_fetch. cbn [state_request pathname method].
    change ("/state" =? "/message")%string with false.
    change ("/state" =? "/state")%string with true.
    change ("GET" =? "GET")%string with true.
    cbn [andb].
    unfold AdvisorState_getState, try_catch, bind, ret,
      storage_get_history, storage_get_stage, storage_operation.
    destruct (storage_fault env (storage_ops w)) as [m |]; [reflexivity |].
    cbn [storage_ops].
    destruct (storage_fault env (S (storage_ops w))) as [m |];
      [reflexivity |].
    eexists. split; [reflexivity |]. split; [reflexivity |].
    intros Hh Hs. cbn [fst resp_body json_response stored_history
      stored_stage]. rewrite Hh, Hs. reflexivity.
Qed.

End StoreMore.

Section StoreWrites.

Variable E : Engine.
Variable env : Env.

(** X6. [handleMessage] puts the history and then the stage, and the two puts
    are not one: when the first fails nothing is stored, when the second
    fails the two turns are stored under the old stage; either way the
    answer is 500 with the message of the failure.  When the three storage
    operations succeed the answer is 200. *)
Theorem handleMessage_writes_in_two_steps (w : World)
    (userMessage assistantMessage nextStage : string) :
  let run := AdvisorState_fetch E env
               (message_request (VStr userMessage) (VStr assistantMessage)
                  (VStr nextStage)) w in
  let written := appended w (VStr userMessage) (VStr assistantMessage)
                   (Date_now env (ticks w)) (Date_now env (S (ticks w))) in
  match storage_fault env (storage_ops w),
        storage_fault env (S (storage_ops w)),
        storage_fault env (S (S (storage_ops w))) with
  | Some m, _, _ | None, Some m, _ =>
      fst run = Ok (error_response m) /\ same_store w (snd run)
  | None, None, Some m =>
      fst run = Ok (error_response m)
      /\ stored_history (snd run) = written
      /\ stored_stage (snd run) = stored_stage w
  | None, None, None =>
      (exists r, fst run = Ok r /\ status r = 200%Z)
      /\ stored_history (snd run) = written
      /\ stored_stage (snd run) = VStr nextStage
  end.
Proof.
  intros run written. unfold run, written, appended.
  unfold AdvisorState_fetch, message_request, json_request.
  cbn [pathname method].
  change ("/message" =? "/message")%string with true.
  change ("POST" =? "POST")%string with true.
  cbn [andb].
  unfold AdvisorState_handleMessage, try_catch, bind, ret, lift,
    storage_get_history, storage_put_history, storage_put_stage,
    storage_operation, Date_now_call.
  cbn [Request_json req_body JSON_roundtrip not_serialisable obind
       destructure get_prop lookup String.eqb Ascii.eqb Bool.eqb].
  destruct (storage_fault env (storage_ops w)) as [m |].
  { split; [reflexivity | split; reflexivity]. }
  cbn [storage_ops ticks stored_history stored_stage trace fst snd].
  destruct (storage_fault env (S (storage_ops w))) as [m |].
  { split; [reflexivity | split; reflexivity]. }
  cbn [storage_ops ticks stored_history stored_stage trace fst snd].
  destruct (storage_fault env (S (S (storage_ops w)))) as [m |].
  { split; [reflexivity |]. split; [| reflexivity].
    cbn [snd stored_history]. rewrite <- app_assoc. reflexivity. }
  split; [eexists; split; reflexivity |].
  split; [| reflexivity].
  cbn [snd stored_history]. rewrite <- app_assoc. reflexivity.
Qed.

End StoreWrites.

Section ChatPaths.

Variable E : Engine.
Variable env : Env.

Lemma run_succeeded (trigger : DiagnosisInput) (out : DiagnosisOutput) :
  DiagnosisWorkflow_run E trigger = Ok out ->
  exists userMessage,
    in_userMessage trigger = VStr userMessage
    /\ determineNextStage E (in_currentStage trigger) (VStr userMessage)
         (in_conversationHistory trigger) = Ok (nextStage out).
Proof.
  unfold DiagnosisWorkflow_run. intros H.
  destruct (getSystemPromptForStage E _) as [p | m]; [| discriminate H].
  cbn [obind] in H.
  destruct (determineNextStage E _ _ _) as [next | m] eqn:Hnext;
    [| discriminate H].
  cbn [obind] in H. injection H as <-. cbn [nextStage].
  destruct (in_userMessage trigger) as [| | b | q | s | l | f | n] eqn:Hm;
    try discriminate Hnext.
  exists s. split; [reflexivity | exact Hnext].
Qed.

(** Every chat turn goes one of the four ways. *)
Lemma handleChat_path (request : Request) (w : World) :
  chat_path E env request w
    (fst (handleChat E env request w)) (snd (handleChat E env request w)).
Proof.
  unfold handleChat, try_catch, bind, lift.
  destruct (Request_json E request) as [parsed | m0];
    [| apply chat_refused; right; reflexivity].
  destruct (destructure E parsed "sessionId") as [sessionId | m0];
    [| apply chat_refused; right; reflexivity].
  destruct (destructure E parsed "userMessage") as [userMessage | m0];
    [| apply chat_refused; right; reflexivity].
  destruct (negb (truthy sessionId) || negb (truthy userMessage)) eqn:Hvalid;
    [apply chat_refused; left; reflexivity |].
  apply orb_false_iff in Hvalid. destruct Hvalid as (_ & Hmsg).
  apply negb_false_iff in Hmsg.
  destruct (doStub_fetch E env state_request w) as [res1 w1] eqn:Hread.
  destruct res1 as [stateRes | m0];
    [| eapply chat_stopped_after_read; exact Hread].
  destruct (Response_json E stateRes) as [sessionState | m0] eqn:Hjson;
    [| eapply chat_stopped_after_read; exact Hread].
  destruct (get_prop E sessionState "stage") as [stage0 | m0] eqn:Hstage;
    [| eapply chat_stopped_after_read; exact Hread].
  destruct (get_prop E sessionState "history") as [history0 | m0] eqn:Hhist;
    [| eapply chat_stopped_after_read; exact Hread].
  destruct (DiagnosisWorkflow_run E _) as [workflowResult | m0] eqn:Hrun;
    [| eapply chat_stopped_after_read; exact Hread].
  apply run_succeeded in Hrun. cbn [in_userMessage in_currentStage
    in_conversationHistory] in Hrun.
  destruct Hrun as (msg & -> & Hnext).
  apply truthy_string in Hmsg.
  destruct (build_messages E _ _ _) as [msgs | m0] eqn:Hmsgs;
    [| eapply chat_stopped_after_read; exact Hread].
  destruct (AI_run_trace env llama_model
              {| messages := msgs; temperature := 1 # 2; max_tokens := 400 |}
              w1) as (w2 & Hai & _).
  rewrite Hai.
  destruct (ai_run env llama_model _) as [aiResponse | m0] eqn:Hanswer.
  2:{ eapply chat_stopped_at_backend; [exact Hread | exact Hmsgs | |].
      - rewrite Hanswer. exact Hai.
      - left. exact Hanswer. }
  destruct (coerce_response E aiResponse) as [text | m0] eqn:Hcoerce.
  2:{ eapply chat_stopped_at_backend; [exact Hread | exact Hmsgs | |].
      - rewrite Hanswer. exact Hai.
      - right. exists aiResponse. split; [exact Hanswer | exact Hcoerce]. }
  destruct (doStub_fetch E env (message_request _ _ _) w2)
    as [res3 w3] eqn:Hwrite.
  pose proof (chat_wrote E env request w sessionId sessionState stage0
                history0 (systemPrompt workflowResult) msg text
                (nextStage workflowResult) msgs aiResponse stateRes res3
                w1 w2 w3 Hmsg Hread Hjson Hstage Hhist Hnext Hmsgs Hai
                Hcoerce Hwrite) as Hpath.
  destruct res3; exact Hpath.
Qed.

End ChatPaths.

Section ChatMore.

Variable E : Engine.
Variable env : Env.

Lemma keeps_store_AdvisorState_getState_fetch (w : World) :
  same_store w (snd (AdvisorState_fetch E env state_request w)).
Proof. apply (keeps_store_getState env). Qed.

(** Reading the state: one call recorded, nothing stored. *)
Lemma doStub_fetch_state (w w1 : World) (res : outcome Response) :
  doStub_fetch E env state_request w = (res, w1) ->
  same_store w w1 /\ trace w1 = StubFetch state_request :: trace w.
Proof.
  intros H.
  destruct (doStub_fetch_cases E env state_request w)
    as (res' & w1' & H' & Htrace & _).
  rewrite H in H'. injection H' as <- <-.
  split; [| exact Htrace].
  unfold doStub_fetch in H.
  destruct (stub_fault env state_request).
  - injection H as _ <-. split; reflexivity.
  - match type of H with AdvisorState_fetch E env _ ?x = _ =>
      pose proof (keeps_store_AdvisorState_getState_fetch x) as Hkeep
    end.
    rewrite H in Hkeep. exact Hkeep.
Qed.

Lemma AI_run_effect (model : string) (options : AiOptions) (w w2 : World)
    (res : outcome value) :
  AI_run env model options w = (res, w2) ->
  same_store w w2 /\ trace w2 = AiRun model options :: trace w.
Proof.
  unfold AI_run. intros H. injection H as _ <-.
  split; [split |]; reflexivity.
Qed.

(** Asking the store to write: one call recorded; the stored history is
    either kept or extended by the two turns, and the stage changes only
    together with the history. *)
Lemma doStub_fetch_message (w w3 : World) (res : outcome Response)
    (userMessage assistantMessage nextStage : string) :
  doStub_fetch E env
    (message_request (VStr userMessage) (VStr assistantMessage)
       (VStr nextStage)) w = (res, w3) ->
  trace w3
  = StubFetch (message_request (VStr userMessage) (VStr assistantMessage)
                 (VStr nextStage)) :: trace w
  /\ (same_store w w3
      \/ exists t1 t2,
           stored_history w3
           = Some (map JSON_element (parse_history (stored_history w))
                   ++ [ChatMessage_value
                         {| msg_role := user; msg_content := userMessage;
                            msg_timestamp := t1 |};
                       ChatMessage_value
                         {| msg_role := assistant;
                            msg_content := assistantMessage;
                            msg_timestamp := t2 |}])
           /\ (stored_stage w3 = stored_stage w
               \/ stored_stage w3 = VStr nextStage)).
Proof.
  intros H.
  destruct (doStub_fetch_cases E env
              (message_request (VStr userMessage) (VStr assistantMessage)
                 (VStr nextStage)) w) as (res' & w3' & H' & Htrace & _).
  rewrite H in H'. injection H' as <- <-.
  split; [exact Htrace |].
  unfold doStub_fetch in H.
  destruct (stub_fault env _).
  { injection H as _ <-. left. split; reflexivity. }
  revert H.
  unfold AdvisorState_fetch, message_request, json_request.
  cbn [pathname method].
  change ("/message" =? "/message")%string with true.
  change ("POST" =? "POST")%string with true.
  cbn [andb].
  unfold AdvisorState_handleMessage, try_catch, bind, ret, lift,
    storage_get_history, storage_put_history, storage_put_stage,
    storage_operation, Date_now_call.
  cbn [Request_json req_body JSON_roundtrip not_serialisable obind
       destructure get_prop lookup String.eqb Ascii.eqb Bool.eqb].
  cbn [storage_ops ticks stored_history stored_stage trace fst snd].
  destruct (storage_fault env (storage_ops w)).
  { intros H. injection H as _ <-. left. split; reflexivity. }
  cbn [storage_ops ticks stored_history stored_stage trace fst snd].
  destruct (storage_fault env (S (storage_ops w))).
  { intros H. injection H as _ <-. left. split; reflexivity. }
  cbn [storage_ops ticks stored_history stored_stage trace fst snd].
  destruct (storage_fault env (S (S (storage_ops w))));
    intros H; injection H as _ <-; right;
    exists (Date_now env (ticks w)), (Date_now env (S (ticks w)));
    (split; [cbn [stored_history]; rewrite <- app_assoc, map_app;
             reflexivity |]); [left | right]; reflexivity.
Qed.

(** X8. A chat turn is always answered: whatever the request, the store and
    the backend do, [handleChat] returns a response, with status 200, 400
    or 500. *)
Theorem handleChat_always_answers (request : Request) (w : World) :
  exists r,
    fst (handleChat E env request w) = Ok r
    /\ (status r = 200 \/ status r = 400 \/ status r = 500)%Z.
Proof.
  destruct (handleChat_path E env request w)
    as [r Hr | m res1 w1 _ | sp h u m msgs sr w1 w2 _ _ _ _
        | sid ss s0 h0 sp u text next msgs ai sr res3 w1 w2 w3
          _ _ _ _ _ _ _ _ _ _].
  - exists r. split; [reflexivity | tauto].
  - eexists. split; [reflexivity |]. right. right. reflexivity.
  - eexists. split; [reflexivity |]. right. right. reflexivity.
  - destruct res3.
    + eexists. split; [reflexivity |]. left. reflexivity.
    + eexists. split; [reflexivity |]. right. right. reflexivity.
Qed.

End ChatMore.

Section CoercionInChat.

Variable E : Engine.
Variable env : Env.


End CoercionInChat.

Section ChatInvariants.

Variable E : Engine.
Variable env : Env.

Lemma build_messages_length (systemPrompt userMessage : value)
    (history : list value) (msgs : list AiMessage) :
  build_messages E systemPrompt history userMessage = Ok msgs ->
  2 <= List.length msgs <= 10.
Proof.
  intros H. unfold build_messages in H.
  destruct (map_outcome _ _) as [derived | m] eqn:Hmap; [| discriminate H].
  cbn [obind] in H. injection H as <-.
  apply map_outcome_length in Hmap.
  pose proof (filter_length_le (has_role_and_content E)
                (slice_last 8 history)) as Hle.
  rewrite slice_last_length in Hle.
  cbn [List.length]. rewrite length_app. cbn [List.length]. lia.
Qed.

(** X9. The calls of a chat turn come in one order: the state is read from the
    session store, then the backend is asked once, with the fixed model,
    temperature 0.5, at most 400 tokens and between 2 and 10 messages, then
    the store is asked once to write.  A turn may stop after any of them,
    and makes no other call. *)
Theorem handleChat_calls_in_order (request : Request) (w : World) :
  let w' := snd (handleChat E env request w) in
  trace w' = trace w
  \/ trace w' = StubFetch state_request :: trace w
  \/ (exists msgs,
        trace w'
        = AiRun llama_model
            {| messages := msgs; temperature := 1 # 2; max_tokens := 400 |}
          :: StubFetch state_request :: trace w
        /\ 2 <= List.length msgs <= 10)
  \/ (exists msgs userMessage text next,
        trace w'
        = StubFetch (message_request (VStr userMessage) (VStr text)
                       (VStr (stage_label next)))
          :: AiRun llama_model
               {| messages := msgs; temperature := 1 # 2;
                  max_tokens := 400 |}
          :: StubFetch state_request :: trace w
        /\ 2 <= List.length msgs <= 10).
Proof.
  intros w'. unfold w'.
  destruct (handleChat_path E env request w)
    as [r Hr | m res1 w1 Hread | sp h u m msgs sr w1 w2 Hread Hmsgs Hai _
        | sid ss s0 h0 sp u text next msgs ai sr res3 w1 w2 w3
          _ Hread _ _ _ _ Hmsgs Hai _ Hwrite].
  - left. reflexivity.
  - right. left. apply (doStub_fetch_state E env _ _ _ Hread).
  - right. right. left. exists msgs.
    apply AI_run_effect in Hai. destruct Hai as (_ & ->).
    rewrite (proj2 (doStub_fetch_state E env _ _ _ Hread)).
    split; [reflexivity | exact (build_messages_length _ _ _ _ Hmsgs)].
  - right. right. right. exists msgs, u, text, next.
    apply doStub_fetch_message in Hwrite. destruct Hwrite as (-> & _).
    apply AI_run_effect in Hai. destruct Hai as (_ & ->).
    rewrite (proj2 (doStub_fetch_state E env _ _ _ Hread)).
    split; [reflexivity | exact (build_messages_length _ _ _ _ Hmsgs)].
Qed.

(** X10. A turn is answered with status 200 only after the store has been asked
    to write, and what the answer carries is what the store was asked to
    write: the same reply and the same stage. *)
Theorem success_reports_what_was_sent (request : Request) (w : World)
    (r : Response) :
  fst (handleChat E env request w) = Ok r ->
  status r = 200%Z ->
  exists sessionId userMessage text next earlier,
    r = json_response 200
          (VObj [("message", VStr text);
                 ("stage", VStr (stage_label next));
                 ("sessionId", sessionId)])
    /\ trace (snd (handleChat E env request w))
       = StubFetch (message_request (VStr userMessage) (VStr text)
                      (VStr (stage_label next)))
         :: earlier ++ trace w.
Proof.
  destruct (handleChat_path E env request w)
    as [r' Hr | m res1 w1 Hread | sp h u m msgs sr w1 w2 Hread Hmsgs Hai _
        | sid ss s0 h0 sp u text next msgs ai sr res3 w1 w2 w3
          _ Hread _ _ _ _ Hmsgs Hai _ Hwrite];
    intros Hres Hstatus.
  - injection Hres as <-. rewrite Hstatus in Hr.
    destruct Hr; discriminate.
  - injection Hres as <-. discriminate Hstatus.
  - injection Hres as <-. discriminate Hstatus.
  - destruct res3 as [r3 | m].
    2:{ injection Hres as <-. discriminate Hstatus. }
    injection Hres as <-.
    exists sid, u, text, next.
    exists [AiRun llama_model
              {| messages := msgs; temperature := 1 # 2; max_tokens := 400 |};
            StubFetch state_request].
    split; [reflexivity |].
    apply doStub_fetch_message in Hwrite. destruct Hwrite as (-> & _).
    apply AI_run_effect in Hai. destruct Hai as (_ & ->).
    rewrite (proj2 (doStub_fetch_state E env _ _ _ Hread)).
    reflexivity.
Qed.

(** X11. When the backend fails, nothing is stored: the stored history and stage
    are as before the turn, the store is not asked to write, and the answer
    is not a 200. *)
Theorem backend_failure_stores_nothing (request : Request) (w : World) :
  (forall model options, exists m, ai_run env model options = Throw m) ->
  let w' := snd (handleChat E env request w) in
  same_store w w'
  /\ (forall r, In (StubFetch r) (trace w') ->
      r = state_request \/ In (StubFetch r) (trace w))
  /\ exists r, fst (handleChat E env request w) = Ok r
               /\ status r <> 200%Z.
Proof.
  intros Hdown w'. unfold w'.
  destruct (handleChat_path E env request w)
    as [r Hr | m res1 w1 Hread | sp h u m msgs sr w1 w2 Hread Hmsgs Hai _
        | sid ss s0 h0 sp u text next msgs ai sr res3 w1 w2 w3
          _ Hread _ _ _ _ Hmsgs Hai _ Hwrite].
  - split; [apply same_store_refl |]. split.
    + intros r0 Hin. right. exact Hin.
    + exists r. split; [reflexivity |].
      destruct Hr as [-> | ->]; discriminate.
  - destruct (doStub_fetch_state E env _ _ _ Hread) as (Hsame & Htrace).
    split; [exact Hsame |]. split.
    + intros r0 Hin. rewrite Htrace in Hin.
      destruct Hin as [Heq | Hin]; [left; congruence | right; exact Hin].
    + eexists. split; [reflexivity | discriminate].
  - destruct (doStub_fetch_state E env _ _ _ Hread) as (Hsame & Htrace).
    apply AI_run_effect in Hai. destruct Hai as (Hsame2 & Htrace2).
    split; [eapply same_store_trans; eassumption |]. split.
    + intros r0 Hin. rewrite Htrace2, Htrace in Hin.
      destruct Hin as [Heq | [Heq | Hin]];
        [discriminate Heq | left; congruence | right; exact Hin].
    + eexists. split; [reflexivity | discriminate].
  - exfalso. unfold AI_run in Hai. injection Hai as Hanswer _.
    destruct (Hdown llama_model
                {| messages := msgs; temperature := 1 # 2;
                   max_tokens := 400 |}) as (m & Hm).
    rewrite Hm in Hanswer. discriminate Hanswer.
Qed.

Lemma exchanges_clean (h : list value) :
  exchanges h -> map JSON_element h = h.
Proof.
  induction 1 as [| h u a t1 t2 _ IH _]; [reflexivity |].
  rewrite map_app, IH. reflexivity.
Qed.

Lemma stage_held_label (s : Stage) : stage_held (VStr (stage_label s)) s.
Proof. left. reflexivity. Qed.

(** A chat turn keeps the store well formed, whatever fails. *)
Lemma handleChat_well_formed (request : Request) (w : World) :
  well_formed_store w ->
  well_formed_store (snd (handleChat E env request w)).
Proof.
  intros (Hhistory & s & Hstage).
  assert (Hkept : forall w', same_store w w' -> well_formed_store w').
  { intros w' (Hh & Hs). split.
    - rewrite Hh. exact Hhistory.
    - exists s. rewrite Hs. exact Hstage. }
  destruct (handleChat_path E env request w)
    as [r Hr | m res1 w1 Hread | sp h u m msgs sr w1 w2 Hread Hmsgs Hai _
        | sid ss s0 h0 sp u text next msgs ai sr res3 w1 w2 w3
          Hu Hread _ _ _ _ Hmsgs Hai _ Hwrite].
  - apply Hkept, same_store_refl.
  - apply Hkept. apply (doStub_fetch_state E env _ _ _ Hread).
  - apply Hkept. eapply same_store_trans.
    + apply (doStub_fetch_state E env _ _ _ Hread).
    + apply (AI_run_effect env _ _ _ _ _ Hai).
  - assert (Hsame : same_store w w2).
    { eapply same_store_trans.
      - apply (doStub_fetch_state E env _ _ _ Hread).
      - apply (AI_run_effect env _ _ _ _ _ Hai). }
    apply doStub_fetch_message in Hwrite.
    destruct Hwrite as (_ & [Hsame3 | (t1 & t2 & Hh3 & Hs3)]).
    + apply Hkept. eapply same_store_trans; eassumption.
    + destruct Hsame as (Hh2 & Hs2). split.
      * rewrite Hh3, Hh2. cbn [parse_history].
        rewrite (exchanges_clean _ Hhistory).
        apply exchanges_more; assumption.
      * destruct Hs3 as [-> | ->].
        -- exists s. rewrite Hs2. exact Hstage.
        -- exists next. apply stage_held_label.
Qed.

Lemma stage_read_label (s : Stage) : stage_read (VStr (stage_label s)) = s.
Proof. destruct s; reflexivity. Qed.

Lemma stage_read_diagnostic (v : value) :
  stage_read v = diagnostic -> v = VStr "diagnostic".
Proof.
  destruct v; try discriminate. simpl.
  destruct (String.eqb_spec s "diagnostic") as [-> | _]; [reflexivity |].
  destruct (s =? "solution")%string; discriminate.
Qed.

Lemma stage_read_solution (v : value) :
  stage_read v = solution -> v = VStr "solution".
Proof.
  destruct v; try discriminate. simpl.
  destruct (String.eqb_spec s "diagnostic") as [-> | _]; [discriminate |].
  destruct (String.eqb_spec s "solution") as [-> | _];
    [reflexivity | discriminate].
Qed.

Hypothesis storage_works : forall n, storage_fault env n = None.

(** The state a chat turn reads from a store whose storage works. *)
Lemma doStub_fetch_state_works (w w1 : World) (stateRes : Response) :
  doStub_fetch E env state_request w = (Ok stateRes, w1) ->
  stateRes
  = json_response 200
      (VObj [("stage", js_or (stored_stage w) (VStr "initial"));
             ("messageCount",
              array_length (parse_history (stored_history w)));
             ("history", VArr (parse_history (stored_history w)))]).
Proof.
  unfold doStub_fetch.
  destruct (stub_fault env state_request); [discriminate |].
  rewrite (getState_works E env storage_works). cbn [stored_stage
    stored_history].
  intros H. injection H as <- _. reflexivity.
Qed.

(** With a store whose storage works, a chat turn that no other write
    interleaves with, from its read of the state to its write, does not
    move the stored stage backward. *)
Lemma handleChat_stage_forward (request : Request) (w : World) :
  stage_le (stage_read (stored_stage w))
    (stage_read (stored_stage (snd (handleChat E env request w)))).
Proof.
  assert (Hkept : forall w', same_store w w' ->
            stage_le (stage_read (stored_stage w))
              (stage_read (stored_stage w'))).
  { intros w' (_ & ->). unfold stage_le. lia. }
  destruct (handleChat_path E env request w)
    as [r Hr | m res1 w1 Hread | sp h u m msgs sr w1 w2 Hread Hmsgs Hai _
        | sid ss s0 h0 sp u text next msgs ai sr res3 w1 w2 w3
          Hu Hread Hjson Hs0 _ Hnext Hmsgs Hai _ Hwrite].
  - apply Hkept, same_store_refl.
  - apply Hkept. apply (doStub_fetch_state E env _ _ _ Hread).
  - apply Hkept. eapply same_store_trans.
    + apply (doStub_fetch_state E env _ _ _ Hread).
    + apply (AI_run_effect env _ _ _ _ _ Hai).
  - assert (Hsame : same_store w w2).
    { eapply same_store_trans.
      - apply (doStub_fetch_state E env _ _ _ Hread).
      - apply (AI_run_effect env _ _ _ _ _ Hai). }
    apply doStub_fetch_message in Hwrite.
    destruct Hwrite as (_ & [Hsame3 | (t1 & t2 & _ & [Hs3 | Hs3])]).
    + apply Hkept. eapply same_store_trans; eassumption.
    + unfold stage_le. rewrite Hs3, (proj2 Hsame). lia.
    + rewrite Hs3, stage_read_label.
      apply doStub_fetch_state_works in Hread. subst sr.
      unfold stage_le.
      destruct (stage_read (stored_stage w)) eqn:Hstored.
      * simpl. lia.
      * apply stage_read_diagnostic in Hstored. rewrite Hstored in Hjson.
        injection Hjson as <-. injection Hs0 as <-.
        change (js_or (VStr "diagnostic") (VStr "initial"))
          with (VStr (stage_label diagnostic)) in Hnext.
        rewrite determineNextStage_label in Hnext.
        injection Hnext as <-.
        match goal with
        | |- context [if ?b then solution else diagnostic] => destruct b
        end; simpl; lia.
      * apply stage_read_solution in Hstored. rewrite Hstored in Hjson.
        injection Hjson as <-. injection Hs0 as <-.
        change (js_or (VStr "solution") (VStr "initial"))
          with (VStr (stage_label solution)) in Hnext.
        rewrite determineNextStage_label in Hnext.
        injection Hnext as <-. simpl. lia.
Qed.

End ChatInvariants.

Section StageOfAWrite.

Variable E : Engine.
Variable env : Env.

(** X16. The stage a chat turn asks the store to write is never behind the
    stage that the store answered to the same turn's read of the state, in
    [initial < diagnostic < solution]: it is one of the three labels, and
    the policy has moved it forward or kept it.  The bound is against what
    the turn itself read; the store keeps whatever stage the latest write
    carries. *)
Theorem written_stage_not_behind_read (request : Request) (w w1 : World)
    (stateRes : Response) (sessionState stage0 : value)
    (userMessage text nextStage : string) (options : AiOptions) :
  doStub_fetch E env state_request w = (Ok stateRes, w1) ->
  Response_json E stateRes = Ok sessionState ->
  get_prop E sessionState "stage" = Ok stage0 ->
  trace (snd (handleChat E env request w))
  = StubFetch (message_request (VStr userMessage) (VStr text)
                 (VStr nextStage))
    :: AiRun llama_model options :: StubFetch state_request :: trace w ->
  exists next,
    nextStage = stage_label next
    /\ stage_le (stage_read stage0) next.
Proof.
  intros Hread0 Hjson0 Hstage0.
  destruct (handleChat_path E env request w)
    as [r Hr | m res1 w1' Hread | sp h u m msgs sr w1' w2 Hread Hmsgs Hai _
        | sid ss s0 h0 sp u reply next msgs ai sr res3 w1' w2 w3
          _ Hread Hjson Hs0 _ Hnext Hmsgs Hai _ Hwrite];
    intros Htrace.
  - exfalso. apply (f_equal (@List.length event)) in Htrace.
    cbn [List.length] in Htrace. lia.
  - exfalso.
    rewrite (proj2 (doStub_fetch_state E env _ _ _ Hread)) in Htrace.
    apply (f_equal (@List.length event)) in Htrace.
    cbn [List.length] in Htrace. lia.
  - exfalso.
    rewrite (proj2 (AI_run_effect env _ _ _ _ _ Hai)) in Htrace.
    discriminate Htrace.
  - apply doStub_fetch_message in Hwrite. destruct Hwrite as (Htrace3 & _).
    rewrite Htrace3 in Htrace.
    assert (Hnext_eq : stage_label next = nextStage)
      by (injection Htrace; intros; assumption).
    clear Htrace.
    rewrite Hread in Hread0. injection Hread0 as <- _.
    rewrite Hjson in Hjson0. injection Hjson0 as <-.
    rewrite Hs0 in Hstage0. injection Hstage0 as <-.
    exists next. split; [symmetry; exact Hnext_eq |].
    unfold stage_le.
    destruct (stage_read s0) eqn:Hstored.
    + simpl. lia.
    + apply stage_read_diagnostic in Hstored. subst s0.
      change (js_or (VStr "diagnostic") (VStr "initial"))
        with (VStr (stage_label diagnostic)) in Hnext.
      rewrite determineNextStage_label in Hnext.
      injection Hnext as <-.
      match goal with
      | |- context [if ?b then solution else diagnostic] => destruct b
      end; simpl; lia.
    + apply stage_read_solution in Hstored. subst s0.
      change (js_or (VStr "solution") (VStr "initial"))
        with (VStr (stage_label solution)) in Hnext.
      rewrite determineNextStage_label in Hnext.
      injection Hnext as <-. simpl. lia.
Qed.

End StageOfAWrite.

Section ChatForward.

Variable E : Engine.
Variable env : Env.

Lemma run_needs_text (trigger : DiagnosisInput) :
  (forall s, in_userMessage trigger <> VStr s) ->
  exists message, DiagnosisWorkflow_run E trigger = Throw message.
Proof.
  intros Hnot. unfold DiagnosisWorkflow_run.
  destruct (getSystemPromptForStage E _) as [p | m];
    [| exists m; reflexivity].
  cbn [obind]. unfold determineNextStage.
  destruct (in_userMessage trigger) eqn:Hm;
    try (eexists; reflexivity).
  exfalso. apply (Hnot s). reflexivity.
Qed.

(** X12. With a session id that is a string, a user message that is truthy
    and not a string (a number, an object, [true]) passes validation and is
    refused only once the policy calls [toLowerCase] on it: the turn is
    answered 500 after the state has been read from the store, the backend
    is never asked, nothing is stored. *)
Theorem non_text_message_stops_after_read (request : Request) (w : World)
    (parsed userMessage : value) (sessionId : string) :
  req_body request = Some parsed ->
  destructure E parsed "sessionId" = Ok (VStr sessionId) ->
  destructure E parsed "userMessage" = Ok userMessage ->
  sessionId <> "" ->
  truthy userMessage = true ->
  (forall s, userMessage <> VStr s) ->
  let run := handleChat E env request w in
  (exists message, fst run = Ok (error_response message))
  /\ same_store w (snd run)
  /\ trace (snd run) = StubFetch state_request :: trace w.
Proof.
  intros Hbody Hsid Hmsg Htsid Htmsg Hnot run. unfold run.
  apply truthy_string in Htsid.
  unfold handleChat, try_catch, bind, lift, Request_json.
  rewrite Hbody, Hsid, Hmsg, Htsid, Htmsg. cbn [negb orb].
  destruct (doStub_fetch E env state_request w) as [res1 w1] eqn:Hread.
  destruct (doStub_fetch_state E env _ _ _ Hread) as (Hsame & Htrace).
  assert (Hdone : forall m,
            (exists message,
               fst (ret (error_response m) w1) = Ok (error_response message))
            /\ same_store w (snd (ret (error_response m) w1))
            /\ trace (snd (ret (error_response m) w1))
               = StubFetch state_request :: trace w).
  { intros m. split; [exists m; reflexivity |]. split; assumption. }
  destruct res1 as [stateRes | m0]; [| apply Hdone].
  destruct (Response_json E stateRes) as [sessionState | m0];
    [| apply Hdone].
  destruct (get_prop E sessionState "stage") as [stage0 | m0];
    [| apply Hdone].
  destruct (get_prop E sessionState "history") as [history0 | m0];
    [| apply Hdone].
  match goal with
  | |- context [DiagnosisWorkflow_run E ?t] =>
      destruct (run_needs_text t Hnot) as (m0 & ->)
  end.
  apply Hdone.
Qed.

(** The three storage operations of a write, all of them succeeding. *)
Lemma handleMessage_succeeds (w : World)
    (userMessage assistantMessage nextStage : string) :
  storage_fault env (storage_ops w) = None ->
  storage_fault env (S (storage_ops w)) = None ->
  storage_fault env (S (S (storage_ops w))) = None ->
  exists r w',
    AdvisorState_fetch E env
      (message_request (VStr userMessage) (VStr assistantMessage)
         (VStr nextStage)) w = (Ok r, w')
    /\ stored_stage w' = VStr nextStage
    /\ trace w' = trace w
    /\ stored_history w'
       = Some (map JSON_element (parse_history (stored_history w))
               ++ [ChatMessage_value
                     {| msg_role := user; msg_content := userMessage;
                        msg_timestamp := Date_now env (ticks w) |};
                   ChatMessage_value
                     {| msg_role := assistant;
                        msg_content := assistantMessage;
                        msg_timestamp := Date_now env (S (ticks w)) |}]).
Proof.
  intros H0 H1 H2.
  unfold AdvisorState_fetch, message_request, json_request.
  cbn [pathname method].
  change ("/message" =? "/message")%string with true.
  change ("POST" =? "POST")%string with true.
  cbn [andb].
  unfold AdvisorState_handleMessage, try_catch, bind, ret, lift,
    storage_get_history, storage_put_history, storage_put_stage,
    storage_operation, Date_now_call.
  cbn [Request_json req_body JSON_roundtrip not_serialisable obind
       destructure get_prop lookup String.eqb Ascii.eqb Bool.eqb].
  rewrite H0.
  cbn [storage_ops ticks stored_history stored_stage trace fst snd].
  rewrite H1.
  cbn [storage_ops ticks stored_history stored_stage trace fst snd].
  rewrite H2.
  eexists _, _. split; [reflexivity |].
  cbn [stored_stage trace stored_history].
  split; [reflexivity |]. split; [reflexivity |].
  rewrite <- app_assoc, map_app. reflexivity.
Qed.

(** X13. When the store is reached and its first read fails, the turn goes on as
    if the session were new: the backend gets the prompt of [initial] and
    the user message alone, the reply is returned with stage [initial], and
    once the write succeeds the store holds the stage [initial] under a
    history that has grown by the two turns, whatever stage it held. *)
Theorem failed_read_restarts_session (w : World)
    (sessionId userMessage text failure : string) (aiResponse : value) :
  sessionId <> "" -> userMessage <> "" ->
  (forall r, stub_fault env r = None) ->
  storage_fault env (storage_ops w) = Some failure ->
  (forall n, storage_ops w < n -> storage_fault env n = None) ->
  ai_run env llama_model
    {| messages := [ {| role := "system"; content := VStr prompt_initial |};
                     {| role := "user"; content := VStr userMessage |} ];
       temperature := 1 # 2; max_tokens := 400 |} = Ok aiResponse ->
  coerce_response E aiResponse = Ok text ->
  exists w' t1 t2,
    handleChat E env (chat_request (VStr sessionId) (VStr userMessage)) w
    = (Ok (json_response 200
             (VObj [("message", VStr text);
                    ("stage", VStr "initial");
                    ("sessionId", VStr sessionId)])),
       w')
    /\ stored_stage w' = VStr "initial"
    /\ stored_history w'
       = Some (map JSON_element (parse_history (stored_history w))
               ++ [ChatMessage_value
                     {| msg_role := user; msg_content := userMessage;
                        msg_timestamp := t1 |};
                   ChatMessage_value
                     {| msg_role := assistant; msg_content := text;
                        msg_timestamp := t2 |}]).
Proof.
  intros Hsid Hmsg Hstub Hfail Hlater Hanswer Hcoerce.
  apply truthy_string in Hsid. apply truthy_string in Hmsg.
  unfold handleChat, try_catch, bind, lift, chat_request.
  cbn [Request_json req_body destructure get_prop lookup String.eqb
       Ascii.eqb Bool.eqb].
  rewrite Hsid, Hmsg. cbn [negb orb].
  unfold doStub_fetch. rewrite (Hstub state_request).
  unfold AdvisorState_fetch at 1. cbn [state_request pathname method].
  change ("/state" =? "/message")%string with false.
  change ("/state" =? "/state")%string with true.
  change ("GET" =? "GET")%string with true.
  cbn [andb].
  unfold AdvisorState_getState, try_catch, bind, ret,
    storage_get_history, storage_operation.
  cbn [storage_ops]. rewrite Hfail.
  cbn [error_response json_response Response_json resp_body JSON_roundtrip
       not_serialisable get_prop lookup String.eqb Ascii.eqb Bool.eqb
       js_or truthy history_or_empty].
  unfold DiagnosisWorkflow_run. cbn [in_currentStage in_userMessage
    in_conversationHistory in_sessionId].
  change (getSystemPromptForStage E (VStr "initial"))
    with (Ok (VStr prompt_initial) : outcome value).
  cbn [obind]. rewrite determineNextStage_string.
  cbn [strict_eq_str String.eqb Ascii.eqb Bool.eqb List.length Nat.leb].
  cbn [obind nextStage systemPrompt stage_label].
  change (build_messages E (VStr prompt_initial) [] (VStr userMessage))
    with (Ok [ {| role := "system"; content := VStr prompt_initial |};
               {| role := "user"; content := VStr userMessage |} ]
          : outcome (list AiMessage)).
  unfold AI_run. rewrite Hanswer, Hcoerce.
  rewrite Hstub.
  match goal with
  | |- context [AdvisorState_fetch E env ?r ?x] =>
      destruct (handleMessage_succeeds x userMessage text "initial")
        as (r3 & w3 & Hwrite & Hstage & _ & Hhistory)
  end.
  { apply Hlater. cbn [storage_ops]. lia. }
  { apply Hlater. cbn [storage_ops]. lia. }
  { apply Hlater. cbn [storage_ops]. lia. }
  rewrite Hwrite.
  exists w3. eexists _, _.
  split; [reflexivity |]. split; [exact Hstage | exact Hhistory].
Qed.

End ChatForward.

Section HealthyTurn.

Variable E : Engine.
Variable env : Env.

Lemma filter_stored_turns (turns : list ChatMessage) :
  filter (has_role_and_content E) (map ChatMessage_value turns)
  = map ChatMessage_value (filter has_text turns).
Proof.
  induction turns as [| m rest IH]; [reflexivity |].
  cbn [map filter]. rewrite has_role_and_content_ChatMessage.
  unfold has_text at 1. destruct (negb _); cbn [map]; rewrite IH;
    reflexivity.
Qed.

Lemma build_messages_stored_turns (systemPrompt userMessage : value)
    (turns : list ChatMessage) :
  build_messages E systemPrompt (map ChatMessage_value turns) userMessage
  = Ok ({| role := "system"; content := systemPrompt |}
        :: map ChatMessage_AiMessage (filter has_text (slice_last 8 turns))
        ++ [{| role := "user"; content := userMessage |}]).
Proof.
  unfold build_messages.
  rewrite slice_last_map, filter_stored_turns.
  rewrite (map_outcome_ok _ _ ChatMessage_AiMessage).
  - reflexivity.
  - intros m _. apply to_AiMessage_ChatMessage.
Qed.

(** X4. The request built from a history of stored turns, however long: the
    system message, then those of the 8 most recent turns whose text is not
    empty, in their order and with their role and text unchanged, then the
    user message.  Turns before the last 8 never reach the backend. *)
Theorem request_from_stored_turns (systemPrompt userMessage : value)
    (older recent : list ChatMessage) :
  List.length recent = 8 ->
  build_messages E systemPrompt (map ChatMessage_value (older ++ recent))
    userMessage
  = Ok ({| role := "system"; content := systemPrompt |}
        :: map ChatMessage_AiMessage (filter has_text recent)
        ++ [{| role := "user"; content := userMessage |}])
  /\ build_messages E systemPrompt (map ChatMessage_value (older ++ recent))
       userMessage
     = build_messages E systemPrompt (map ChatMessage_value recent)
         userMessage.
Proof.
  intros Hlen.
  assert (Hslice : slice_last 8 (older ++ recent) = recent).
  { unfold slice_last. rewrite length_app, Hlen.
    replace (List.length older + 8 - 8) with (List.length older + 0) by lia.
    rewrite skipn_app. rewrite Nat.add_0_r, skipn_all.
    replace (List.length older - List.length older) with 0 by lia.
    reflexivity. }
  assert (Hself : slice_last 8 recent = recent).
  { unfold slice_last. rewrite Hlen. reflexivity. }
  rewrite !build_messages_stored_turns, Hslice, Hself.
  split; reflexivity.
Qed.

Lemma map_JSON_element_turns (turns : list ChatMessage) :
  map JSON_element (map ChatMessage_value turns)
  = map ChatMessage_value turns.
Proof.
  rewrite map_map. apply map_ext. intros m. apply JSON_element_turn.
Qed.

Lemma stage_label_current (s : Stage) :
  js_or (VStr (stage_label s)) (VStr "initial") = VStr (stage_label s).
Proof. destruct s; reflexivity. Qed.

Lemma stage_held_current (v : value) (s : Stage) :
  stage_held v s -> js_or v (VStr "initial") = VStr (stage_label s).
Proof.
  intros [-> | (-> & ->)]; [apply stage_label_current | reflexivity].
Qed.

(** The body of the state endpoint's answer, as its reader parses it. *)
Lemma state_payload (stage : string) (history : list value) :
  JSON_roundtrip
    (VObj [("stage", VStr stage);
           ("messageCount", array_length history);
           ("history", VArr history)])
  = VObj [("stage", VStr stage);
          ("messageCount", array_length history);
          ("history", VArr (map JSON_element history))].
Proof. reflexivity. Qed.

Hypothesis storage_works : forall n, storage_fault env n = None.
Hypothesis store_reachable : forall r, stub_fault env r = None.

(** X14. A chat turn when nothing fails.  The store holds the turns [turns] and
    the stage [s]; the request carries a session id and a user message that
    are not empty; the backend answers the request the turn builds, and the
    answer coerces to [text].  Then the turn is answered 200 with [text]
    and the stage the policy returns for [s] and the stored history; the
    store ends up holding that stage and the history extended by the user
    turn and the assistant turn; and the calls made are the read, the
    generation and the write. *)
Theorem healthy_turn (w : World) (turns : list ChatMessage) (s : Stage)
    (sessionId userMessage text : string) (aiResponse : value) :
  parse_history (stored_history w) = map ChatMessage_value turns ->
  stage_held (stored_stage w) s ->
  sessionId <> "" -> userMessage <> "" ->
  let options :=
    {| messages :=
         {| role := "system"; content := VStr (stage_prompt s) |}
         :: map ChatMessage_AiMessage (filter has_text (slice_last 8 turns))
         ++ [{| role := "user"; content := VStr userMessage |}];
       temperature := 1 # 2; max_tokens := 400 |} in
  ai_run env llama_model options = Ok aiResponse ->
  coerce_response E aiResponse = Ok text ->
  exists next t1 t2 w',
    determineNextStage E (VStr (stage_label s)) (VStr userMessage)
      (map ChatMessage_value turns) = Ok next
    /\ handleChat E env (chat_request (VStr sessionId) (VStr userMessage)) w
       = (Ok (json_response 200
                (VObj [("message", VStr text);
                       ("stage", VStr (stage_label next));
                       ("sessionId", VStr sessionId)])),
          w')
    /\ stored_stage w' = VStr (stage_label next)
    /\ stored_history w'
       = Some (map ChatMessage_value
                 (turns
                  ++ [ {| msg_role := user; msg_content := userMessage;
                          msg_timestamp := t1 |};
                       {| msg_role := assistant; msg_content := text;
                          msg_timestamp := t2 |} ]))
    /\ trace w'
       = StubFetch (message_request (VStr userMessage) (VStr text)
                      (VStr (stage_label next)))
         :: AiRun llama_model options
         :: StubFetch state_request :: trace w.
Proof.
  intros Hturns Hstage Hsid Hmsg options Hanswer Hcoerce.
  destruct (determineNextStage_forward E s userMessage
              (map ChatMessage_value turns)) as (next & Hnext & _).
  exists next.
  apply truthy_string in Hsid. apply truthy_string in Hmsg.
  unfold handleChat, try_catch, bind, lift, chat_request.
  cbn [Request_json req_body destructure get_prop lookup String.eqb
       Ascii.eqb Bool.eqb].
  rewrite Hsid, Hmsg. cbn [negb orb].
  unfold doStub_fetch. rewrite (store_reachable state_request).
  rewrite (getState_works E env storage_works).
  cbn [stored_stage stored_history]. rewrite Hturns.
  rewrite (stage_held_current _ _ Hstage).
  unfold Response_json at 1. unfold json_response at 1. cbn [resp_body].
  rewrite state_payload.
  cbn [Response_json json_response resp_body get_prop lookup String.eqb
       Ascii.eqb Bool.eqb].
  rewrite map_JSON_element_turns.
  rewrite (stage_label_current s).
  unfold history_or_empty. cbn [js_or truthy].
  unfold DiagnosisWorkflow_run. cbn [in_currentStage in_userMessage
    in_conversationHistory in_sessionId].
  rewrite (getSystemPromptForStage_label E). cbn [obind].
  rewrite Hnext. cbn [obind nextStage systemPrompt].
  rewrite build_messages_stored_turns.
  unfold AI_run. fold options. rewrite Hanswer, Hcoerce.
  rewrite store_reachable.
  rewrite (handleMessage_works E env storage_works).
  cbn [stored_history stored_stage ticks trace parse_history].
  eexists _, _, _. split; [reflexivity |].
  split; [reflexivity |]. split; [reflexivity |].
  split; [| reflexivity].
  rewrite Hturns. rewrite map_app, map_JSON_element_turns, map_app.
  reflexivity.
Qed.

End HealthyTurn.

Section WorkerMore.

Variable E : Engine.
Variable env : Env.
Variable chat_ui : string.

(** X7. The durable object only ever appends: whatever request it gets and
    whatever fails, it makes no call, and it either leaves the stored
    history and stage as they are or extends the history by exactly two
    entries, the first with role [user], the second with role
    [assistant]. *)
Theorem AdvisorState_fetch_appends_only (request : Request) (w : World) :
  let w' := snd (AdvisorState_fetch E env request w) in
  trace w' = trace w
  /\ (same_store w w'
      \/ exists e1 e2,
           stored_history w'
           = Some (map JSON_element (parse_history (stored_history w))
                   ++ [e1; e2])
           /\ prop E e1 "role" = VStr "user"
           /\ prop E e2 "role" = VStr "assistant").
Proof.
  intros w'. unfold w'. split.
  { destruct (AdvisorState_fetch_answers E env request w)
      as (r & w1 & -> & Htrace). exact Htrace. }
  unfold AdvisorState_fetch.
  destruct (_ && _).
  2:{ left. destruct (_ && _).
      - apply (keeps_store_getState env).
      - apply same_store_refl. }
  unfold AdvisorState_handleMessage, try_catch, bind, ret, lift.
  destruct (Request_json E request) as [parsed | m];
    [| left; apply same_store_refl].
  destruct (destructure E parsed "userMessage") as [u | m];
    [| left; apply same_store_refl].
  destruct (destructure E parsed "assistantMessage") as [a | m];
    [| left; apply same_store_refl].
  destruct (destructure E parsed "nextStage") as [n | m];
    [| left; apply same_store_refl].
  unfold storage_get_history, storage_put_history, storage_put_stage,
    storage_operation, Date_now_call.
  destruct (storage_fault env (storage_ops w));
    [left; split; reflexivity |].
  cbn [storage_ops ticks stored_history stored_stage trace fst snd].
  destruct (storage_fault env (S (storage_ops w)));
    [left; split; reflexivity |].
  cbn [storage_ops ticks stored_history stored_stage trace fst snd].
  right.
  exists (JSON_element
            (VObj [("role", VStr "user"); ("content", u);
                   ("timestamp", VNum (Date_now env (ticks w)))])),
         (JSON_element
            (VObj [("role", VStr "assistant"); ("content", a);
                   ("timestamp", VNum (Date_now env (S (ticks w))))])).
  split; [| split; reflexivity].
  destruct (storage_fault env (S (S (storage_ops w))));
    cbn [snd stored_history]; rewrite <- app_assoc, map_app; reflexivity.
Qed.

Lemma keeps_store_doStub_fetch_state :
  keeps_store (doStub_fetch E env state_request).
Proof.
  intros w.
  destruct (doStub_fetch E env state_request w) as [res w1] eqn:H.
  apply (doStub_fetch_state E env _ _ _ H).
Qed.

Lemma keeps_store_getHistory (request : Request) :
  keeps_store (getHistory E env request).
Proof.
  unfold getHistory.
  apply keeps_store_try_catch; [| intros; apply keeps_store_ret].
  apply keeps_store_bind; [apply keeps_store_doStub_fetch_state | intros].
  apply keeps_store_bind; [apply keeps_store_lift | intros].
  apply keeps_store_ret.
Qed.

(** X17. [getHistory] passes the store's answer on under status 200, whatever
    that answer was: when the store is reached and its read fails, the
    caller gets the store's [{error}] body with status 200.  Only a store
    that cannot be reached gives a 500.  The store is asked once and
    nothing is stored. *)
Theorem getHistory_answers_200_over_store_failure (request : Request)
    (w : World) :
  let run := getHistory E env request w in
  same_store w (snd run)
  /\ trace (snd run) = StubFetch state_request :: trace w
  /\ match stub_fault env state_request, storage_fault env (storage_ops w)
     with
     | Some m, _ => fst run = Ok (error_response m)
     | None, Some m =>
         fst run = Ok (json_response 200 (VObj [("error", VStr m)]))
     | None, None => exists r, fst run = Ok r /\ status r = 200%Z
     end.
Proof.
  intros run. split; [apply keeps_store_getHistory |].
  unfold run, getHistory, try_catch, bind, lift, ret.
  destruct (doStub_fetch E env state_request w) as [res1 w1] eqn:Hread.
  pose proof (proj2 (doStub_fetch_state E env _ _ _ Hread)) as Htrace.
  split.
  { destruct res1 as [stateRes | m]; [| exact Htrace].
    destruct (Response_json E stateRes); exact Htrace. }
  revert Hread. unfold doStub_fetch.
  destruct (stub_fault env state_request) as [m |].
  { intros H. injection H as <- <-. reflexivity. }
  unfold AdvisorState_fetch. cbn [state_request pathname method].
  change ("/state" =? "/message")%string with false.
  change ("/state" =? "/state")%string with true.
  change ("GET" =? "GET")%string with true.
  cbn [andb].
  unfold AdvisorState_getState, try_catch, bind, ret,
    storage_get_history, storage_get_stage, storage_operation.
  cbn [storage_ops].
  destruct (storage_fault env (storage_ops w)) as [m |].
  { intros H. injection H as <- <-. reflexivity. }
  cbn [storage_ops].
  destruct (storage_fault env (S (storage_ops w))) as [m |];
    intros H; injection H as <- <-; eexists; split; reflexivity.
Qed.

(** X18. Only [POST /api/chat] can change what is stored: every other request
    to the worker leaves the stored history and stage as they are. *)
Theorem Worker_fetch_only_chat_writes (request : Request) (w : World) :
  pathname request <> "/api/chat" \/ method request <> "POST" ->
  same_store w (snd (Worker_fetch E env chat_ui request w)).
Proof.
  intros Hroute. unfold Worker_fetch.
  destruct ((pathname request =? "/")%string
            && (method request =? "GET")%string);
    [apply same_store_refl |].
  destruct ((pathname request =? "/api/chat")%string
            && (method request =? "POST")%string) eqn:Hchat.
  { apply andb_true_iff in Hchat. destruct Hchat as (Hp & Hm).
    apply String.eqb_eq in Hp, Hm. destruct Hroute; contradiction. }
  destruct (String.prefix "/api/history/" (pathname request)
            && (method request =? "GET")%string);
    [apply keeps_store_getHistory | apply same_store_refl].
Qed.

End WorkerMore.

Section Served.

Variable E : Engine.
Variable env : Env.
Variable chat_ui : string.

(** A request to the worker is a chat turn, or stores nothing. *)
Lemma Worker_fetch_effect (request : Request) (w : World) :
  snd (Worker_fetch E env chat_ui request w)
  = snd (handleChat E env request w)
  \/ same_store w (snd (Worker_fetch E env chat_ui request w)).
Proof.
  unfold Worker_fetch.
  destruct ((pathname request =? "/")%string
            && (method request =? "GET")%string);
    [right; apply same_store_refl |].
  destruct ((pathname request =? "/api/chat")%string
            && (method request =? "POST")%string);
    [left; reflexivity |].
  destruct (String.prefix "/api/history/" (pathname request)
            && (method request =? "GET")%string); right;
    [apply keeps_store_getHistory | apply same_store_refl].
Qed.

Lemma exchanges_even (h : list value) :
  exchanges h -> Nat.even (List.length h) = true.
Proof.
  induction 1 as [| h u a t1 t2 _ IH _]; [reflexivity |].
  rewrite length_app. cbn [List.length].
  replace (List.length h + 2) with (S (S (List.length h))) by lia.
  exact IH.
Qed.

(** X15. Whatever requests the worker serves and whatever fails meanwhile, a
    store that starts empty stays well formed: its history is a sequence
    of exchanges, a user turn with a text that is not empty followed by an
    assistant turn, hence of even length, and its stage is absent or one of
    the three labels. *)
Theorem served_store_is_well_formed (requests : list Request) (w : World) :
  stored_history w = None -> stored_stage w = VUndefined ->
  let w' := serve_all E env chat_ui requests w in
  well_formed_store w'
  /\ Nat.even (List.length (parse_history (stored_history w'))) = true.
Proof.
  intros Hh Hs w'.
  assert (Hstart : well_formed_store w).
  { split.
    - rewrite Hh. constructor.
    - exists initial. right. split; [exact Hs | reflexivity]. }
  assert (Hend : well_formed_store w').
  { unfold w'. clear Hh Hs w'. revert w Hstart.
    induction requests as [| request rest IH]; intros w Hw; [exact Hw |].
    cbn [serve_all]. apply IH.
    destruct (Worker_fetch_effect request w) as [-> | (Hh & Hs)].
    - apply handleChat_well_formed. exact Hw.
    - destruct Hw as (Hhist & s & Hstage). split.
      + rewrite Hh. exact Hhist.
      + exists s. rewrite Hs. exact Hstage. }
  split; [exact Hend |]. apply exchanges_even. apply Hend.
Qed.

Hypothesis storage_works : forall n, storage_fault env n = None.

(** Served one at a time, each turn completing before the next begins,
    and with a storage that works, the turns only move the stored stage
    forward in [initial < diagnostic < solution].  Turns that overlap are
    not covered: each writes the stage it derived from its own read. *)
Lemma served_one_at_a_time_stage_forward (requests : list Request)
    (w : World) :
  stage_le (stage_read (stored_stage w))
    (stage_read (stored_stage (serve_all E env chat_ui requests w))).
Proof.
  revert w. induction requests as [| request rest IH]; intros w.
  - unfold stage_le. cbn [serve_all]. lia.
  - cbn [serve_all].
    assert (Hstep : stage_le (stage_read (stored_stage w))
              (stage_read
                 (stored_stage (snd (Worker_fetch E env chat_ui request w))))).
    { destruct (Worker_fetch_effect request w) as [-> | (_ & ->)].
      - apply (handleChat_stage_forward E env storage_works).
      - unfold stage_le. lia. }
    specialize (IH (snd (Worker_fetch E env chat_ui request w))).
    unfold stage_le in *. lia.
Qed.

End Served.

Section UnrecognisedStage.

Variable E : Engine.

(** Serving requests keeps the store well formed. *)
Lemma serve_all_well_formed (env : Env) (chat_ui : string)
    (requests : list Request) (w : World) :
  well_formed_store w ->
  well_formed_store (serve_all E env chat_ui requests w).
Proof.
  revert w. induction requests as [| request rest IH]; intros w Hw;
    [exact Hw |].
  cbn [serve_all]. apply IH.
  destruct (Worker_fetch_effect E env chat_ui request w)
    as [-> | (Hh & Hs)].
  - apply handleChat_well_formed. exact Hw.
  - destruct Hw as (Hhist & s & Hstage). split.
    + rewrite Hh. exact Hhist.
    + exists s. rewrite Hs. exact Hstage.
Qed.

(** What a chat turn makes of the state it reads, [sessionState.stage ||
    'initial'], is one of the three labels when the stored stage is one or
    is absent, whether the storage works or not. *)
Lemma current_stage_is_label (env : Env) (w w1 : World)
    (stateRes : Response) (sessionState stage0 : value) (held : Stage) :
  stage_held (stored_stage w) held ->
  doStub_fetch E env state_request w = (Ok stateRes, w1) ->
  Response_json E stateRes = Ok sessionState ->
  get_prop E sessionState "stage" = Ok stage0 ->
  exists s, js_or stage0 (VStr "initial") = VStr (stage_label s).
Proof.
  intros Hheld. unfold doStub_fetch.
  destruct (stub_fault env state_request); [discriminate |].
  unfold AdvisorState_fetch. cbn [state_request pathname method].
  change ("/state" =? "/message")%string with false.
  change ("/state" =? "/state")%string with true.
  change ("GET" =? "GET")%string with true.
  cbn [andb].
  unfold AdvisorState_getState, try_catch, bind, ret,
    storage_get_history, storage_get_stage, storage_operation.
  cbn [storage_ops ticks stored_history stored_stage trace fst snd].
  destruct (storage_fault env (storage_ops w)).
  { intros H. injection H as <- _. intros H. injection H as <-.
    intros H. injection H as <-. exists initial. reflexivity. }
  cbn [storage_ops ticks stored_history stored_stage trace fst snd].
  destruct (storage_fault env (S (storage_ops w))).
  { intros H. injection H as <- _. intros H. injection H as <-.
    intros H. injection H as <-. exists initial. reflexivity. }
  cbn [storage_ops ticks stored_history stored_stage trace fst snd].
  rewrite (stage_held_current _ _ Hheld).
  intros H. injection H as <- _.
  unfold json_response, Response_json. cbn [resp_body].
  rewrite state_payload.
  intros H. injection H as <-.
  cbn [get_prop lookup String.eqb Ascii.eqb Bool.eqb].
  intros H. injection H as <-.
  exists held. apply stage_label_current.
Qed.

(** C3 (as the code has it). For a current stage whose string form is none
    of the three labels (nor the name of a member of [Object.prototype]),
    the policy returns the prompt of [initial] and the next stage
    [solution], whatever the history; for the current stage [initial] it
    returns the same prompt and the next stage [initial] or [diagnostic],
    never [solution].  The worker does not hand the policy such a value:
    from an empty store and through any requests, the current stage a chat
    turn derives from the state it reads is one of the three labels. *)
Theorem unrecognised_stage_goes_to_solution
    (currentStage sessionId : value) (key userMessage : string)
    (history : list value) :
  js_String E currentStage = Ok key ->
  key <> "initial" -> key <> "diagnostic" -> key <> "solution" ->
  Object_prototype_get key = VUndefined ->
  DiagnosisWorkflow_run E
    {| in_sessionId := sessionId; in_userMessage := VStr userMessage;
       in_conversationHistory := history; in_currentStage := currentStage |}
  = Ok {| systemPrompt := VStr prompt_initial; nextStage := solution;
          out_sessionId := sessionId |}
  /\ DiagnosisWorkflow_run E
       {| in_sessionId := sessionId; in_userMessage := VStr userMessage;
          in_conversationHistory := history;
          in_currentStage := VStr "initial" |}
     = Ok {| systemPrompt := VStr prompt_initial;
             nextStage := if (2 <=? List.length history)%nat
                          then diagnostic else initial;
             out_sessionId := sessionId |}
  /\ (forall env chat_ui requests stateRes w1 sessionState stage0,
        doStub_fetch E env state_request
          (serve_all E env chat_ui requests fresh_world) = (Ok stateRes, w1) ->
        Response_json E stateRes = Ok sessionState ->
        get_prop E sessionState "stage" = Ok stage0 ->
        js_or stage0 (VStr "initial") <> currentStage
        /\ exists s, js_or stage0 (VStr "initial") = VStr (stage_label s)).
Proof.
  intros Hkey Hi Hd Hs Hproto.
  assert (Hnot : forall s, currentStage <> VStr (stage_label s)).
  { intros s ->. cbn [js_String] in Hkey. injection Hkey as <-.
    destruct s; [apply Hi | apply Hd | apply Hs]; reflexivity. }
  split; [| split].
  - unfold DiagnosisWorkflow_run, getSystemPromptForStage.
    cbn [in_currentStage in_userMessage in_conversationHistory in_sessionId].
    rewrite Hkey. cbn [obind].
    rewrite (determineNextStage_unrecognised E _ _ _ Hnot). cbn [obind].
    unfold literal_get at 1, prompts.
    cbn [lookup].
    apply String.eqb_neq in Hi, Hd, Hs. rewrite Hi, Hd, Hs, Hproto.
    reflexivity.
  - unfold DiagnosisWorkflow_run.
    cbn [in_currentStage in_userMessage in_conversationHistory in_sessionId].
    change (VStr "initial") with (VStr (stage_label initial)).
    rewrite determineNextStage_label.
    destruct (2 <=? List.length history)%nat; reflexivity.
  - intros env chat_ui requests stateRes w1 sessionState stage0
      Hread Hjson Hstage.
    assert (Hwf : well_formed_store
                    (serve_all E env chat_ui requests fresh_world)).
    { apply serve_all_well_formed. split.
      - constructor.
      - exists initial. right. split; reflexivity. }
    destruct Hwf as (_ & held & Hheld).
    destruct (current_stage_is_label env _ _ _ _ _ _ Hheld Hread Hjson
                Hstage) as (s & Hlabel).
    split; [| exists s; exact Hlabel].
    rewrite Hlabel. intros Heq. exact (Hnot s (eq_sym Heq)).
Qed.

End UnrecognisedStage.

Section SessionId.

Lemma before_first_absent (sep s : string) :
  after_first sep s = None -> before_first sep s = s.
Proof.
  induction s as [| c s IH]; cbn [after_first before_first].
  - destruct (String.prefix sep ""); intros H;
      [discriminate H | reflexivity].
  - destruct (String.prefix sep (String c s)); intros H;
      [discriminate H |].
    f_equal. apply IH. exact H.
Qed.

(** X19. The session id [getHistory] reads off the path.  For every request the
    router hands to it the id is a string, never [undefined]; it is the
    rest of the path when that rest holds no further ['/api/history/'],
    the empty string for the bare prefix. *)
Theorem history_sessionId_of_path :
  (forall request,
     String.prefix "/api/history/" (pathname request) = true ->
     exists id, history_sessionId request = VStr id)
  /\ (forall id method body,
        after_first "/api/history/" id = None ->
        history_sessionId
          {| pathname := ("/api/history/" ++ id)%string; method := method;
             req_body := body |}
        = VStr id).
Proof.
  split.
  - intros request Hprefix. unfold history_sessionId, split_second.
    destruct (pathname request) as [| c p]; [discriminate Hprefix |].
    unfold after_first. rewrite Hprefix. eexists. reflexivity.
  - intros id method body Habsent.
    unfold history_sessionId, split_second. cbn [pathname].
    assert (Hfirst : after_first "/api/history/" ("/api/history/" ++ id)
                     = Some id).
    { clear Habsent. destruct id; reflexivity. }
    rewrite Hfirst. f_equal. apply before_first_absent. exact Habsent.
Qed.

End SessionId.

(* ================================================================== *)
(** * The further theorems at work *)
(* ================================================================== *)

Lemma getSystemPromptForStage_fallback_witness :
  getSystemPromptForStage sample_engine (VStr "finished")
  = Ok (VStr prompt_initial).
Proof.
  apply (proj1 (proj2 (getSystemPromptForStage_fallback sample_engine))).
  - discriminate.
  - discriminate.
  - discriminate.
  - reflexivity.
Defined.

Lemma run_prompts_for_current_stage_witness :
  exists next,
    DiagnosisWorkflow_run sample_engine
      {| in_sessionId := VStr "s1";
         in_userMessage := VStr "two infrared sensors";
         in_conversationHistory :=
           map ChatMessage_value (firstn 2 ten_turns);
         in_currentStage := VStr (stage_label initial) |}
    = Ok {| systemPrompt := VStr (stage_prompt initial); nextStage := next;
            out_sessionId := VStr "s1" |}
    /\ next = diagnostic
    /\ VStr (stage_prompt initial) <> VStr (stage_prompt next).
Proof.
  destruct (run_prompts_for_current_stage sample_engine initial (VStr "s1")
              "two infrared sensors"
              (map ChatMessage_value (firstn 2 ten_turns)))
    as (next & Hrun & _ & Hprompt).
  exists next.
  assert (Hnext : next = diagnostic).
  { vm_compute in Hrun. injection Hrun as Hnext. symmetry. exact Hnext. }
  split; [exact Hrun |]. split; [exact Hnext |].
  apply Hprompt. rewrite Hnext. discriminate.
Defined.

Lemma build_messages_bounds_witness :
  let request :=
    [ {| role := "system"; content := VStr prompt_initial |};
      {| role := "user"; content := VStr "my line follower oscillates" |};
      {| role := "assistant"; content := VStr "Which sensors does it use?" |};
      {| role := "user"; content := VStr "two infrared sensors" |} ] in
  2 <= List.length request <= 10
  /\ List.length request <= 2 + 2
  /\ hd_error request
     = Some {| role := "system"; content := VStr prompt_initial |}
  /\ last request {| role := "system"; content := VStr prompt_initial |}
     = {| role := "user"; content := VStr "two infrared sensors" |}.
Proof.
  apply (build_messages_bounds sample_engine (VStr prompt_initial)
           (VStr "two infrared sensors")
           (map ChatMessage_value (firstn 2 ten_turns))).
  reflexivity.
Defined.

Lemma request_from_stored_turns_witness :
  build_messages sample_engine (VStr prompt_solution)
    (map ChatMessage_value
       (firstn 2 ten_turns_one_blank ++ skipn 2 ten_turns_one_blank))
    (VStr "thanks")
  = Ok ({| role := "system"; content := VStr prompt_solution |}
        :: map ChatMessage_AiMessage
             (filter has_text (skipn 2 ten_turns_one_blank))
        ++ [{| role := "user"; content := VStr "thanks" |}])
  /\ build_messages sample_engine (VStr prompt_solution)
       (map ChatMessage_value
          (firstn 2 ten_turns_one_blank ++ skipn 2 ten_turns_one_blank))
       (VStr "thanks")
     = build_messages sample_engine (VStr prompt_solution)
         (map ChatMessage_value (skipn 2 ten_turns_one_blank))
         (VStr "thanks").
Proof.
  apply (request_from_stored_turns sample_engine).
  reflexivity.
Defined.

Lemma getState_only_reads_witness :
  exists r,
    fst (AdvisorState_fetch sample_engine (echo_env sensor_reply)
           state_request fresh_world) = Ok r
    /\ resp_body r
       = JsonBody (VObj [("stage", VStr "initial");
                         ("messageCount", VNum (inject_Z 0));
                         ("history", VArr [])]).
Proof.
  destruct (getState_only_reads sample_engine (echo_env sensor_reply)
              fresh_world) as (_ & _ & r & Hr & _ & Hbody).
  exists r. split; [exact Hr |].
  apply Hbody; reflexivity.
Defined.

Lemma success_reports_what_was_sent_witness :
  exists sessionId userMessage text next earlier,
    json_response 200
      (VObj [("message", VStr "Check the sensor spacing.");
             ("stage", VStr "initial");
             ("sessionId", VStr "s1")])
    = json_response 200
        (VObj [("message", VStr text);
               ("stage", VStr (stage_label next));
               ("sessionId", sessionId)])
    /\ trace (snd (handleChat sample_engine (echo_env sensor_reply)
                     (chat_request (VStr "s1")
                        (VStr "my line follower oscillates"))
                     fresh_world))
       = StubFetch (message_request (VStr userMessage) (VStr text)
                      (VStr (stage_label next)))
         :: earlier ++ trace fresh_world.
Proof.
  apply (success_reports_what_was_sent sample_engine
           (echo_env sensor_reply)).
  - vm_compute. reflexivity.
  - reflexivity.
Defined.

Lemma backend_failure_stores_nothing_witness :
  let w' := snd (handleChat sample_engine backend_down
                   (chat_request (VStr "s1") (VStr "two infrared sensors"))
                   diagnostic_world) in
  same_store diagnostic_world w'
  /\ (forall r, In (StubFetch r) (trace w') ->
      r = state_request \/ In (StubFetch r) (trace diagnostic_world))
  /\ exists r,
       fst (handleChat sample_engine backend_down
              (chat_request (VStr "s1") (VStr "two infrared sensors"))
              diagnostic_world) = Ok r
       /\ status r <> 200%Z.
Proof.
  apply (backend_failure_stores_nothing sample_engine backend_down).
  intros model options. eexists. reflexivity.
Defined.

Lemma non_text_message_stops_after_read_witness :
  let run := handleChat sample_engine (echo_env sensor_reply)
               (chat_request (VStr "s1") (VNum (inject_Z 5)))
               diagnostic_world in
  (exists message, fst run = Ok (error_response message))
  /\ same_store diagnostic_world (snd run)
  /\ trace (snd run) = StubFetch state_request :: trace diagnostic_world.
Proof.
  apply (non_text_message_stops_after_read sample_engine
           (echo_env sensor_reply)
           (chat_request (VStr "s1") (VNum (inject_Z 5))) diagnostic_world
           (VObj [("sessionId", VStr "s1");
                  ("userMessage", VNum (inject_Z 5))])
           (VNum (inject_Z 5)) "s1").
  - reflexivity.
  - reflexivity.
  - reflexivity.
  - discriminate.
  - reflexivity.
  - discriminate.
Defined.

(** A session stored at [solution] is sent back to [initial] by one turn
    whose read fails. *)
Lemma failed_read_restarts_session_witness :
  exists w' t1 t2,
    handleChat sample_engine first_read_fails
      (chat_request (VStr "s1") (VStr "thanks")) solved_world
    = (Ok (json_response 200
             (VObj [("message", VStr "Check the sensor spacing.");
                    ("stage", VStr "initial");
                    ("sessionId", VStr "s1")])),
       w')
    /\ stored_stage w' = VStr "initial"
    /\ stored_history w'
       = Some (map JSON_element (parse_history (stored_history solved_world))
               ++ [ChatMessage_value
                     {| msg_role := user; msg_content := "thanks";
                        msg_timestamp := t1 |};
                   ChatMessage_value
                     {| msg_role := assistant;
                        msg_content := "Check the sensor spacing.";
                        msg_timestamp := t2 |}]).
Proof.
  apply (failed_read_restarts_session sample_engine first_read_fails
           solved_world "s1" "thanks" "Check the sensor spacing."
           "storage unavailable" sensor_reply).
  - discriminate.
  - discriminate.
  - intros r. reflexivity.
  - reflexivity.
  - intros n Hn. destruct n; [inversion Hn | reflexivity].
  - reflexivity.
  - reflexivity.
Defined.

Lemma healthy_turn_witness :
  exists next t1 t2 w',
    determineNextStage sample_engine (VStr (stage_label diagnostic))
      (VStr "about 3 cm") (map ChatMessage_value (firstn 4 ten_turns))
    = Ok next
    /\ handleChat sample_engine (echo_env sensor_reply)
         (chat_request (VStr "s1") (VStr "about 3 cm")) diagnostic_world
       = (Ok (json_response 200
                (VObj [("message", VStr "Check the sensor spacing.");
                       ("stage", VStr (stage_label next));
                       ("sessionId", VStr "s1")])),
          w')
    /\ stored_stage w' = VStr (stage_label next)
    /\ stored_history w'
       = Some (map ChatMessage_value
                 (firstn 4 ten_turns
                  ++ [ {| msg_role := user; msg_content := "about 3 cm";
                          msg_timestamp := t1 |};
                       {| msg_role := assistant;
                          msg_content := "Check the sensor spacing.";
                          msg_timestamp := t2 |} ]))
    /\ trace w'
       = StubFetch (message_request (VStr "about 3 cm")
                      (VStr "Check the sensor spacing.")
                      (VStr (stage_label next)))
         :: AiRun llama_model
              {| messages :=
                   {| role := "system";
                      content := VStr (stage_prompt diagnostic) |}
                   :: map ChatMessage_AiMessage
                        (filter has_text (slice_last 8 (firstn 4 ten_turns)))
                   ++ [{| role := "user"; content := VStr "about 3 cm" |}];
                 temperature := 1 # 2; max_tokens := 400 |}
         :: StubFetch state_request :: trace diagnostic_world.
Proof.
  apply (healthy_turn sample_engine (echo_env sensor_reply)
           (fun n => eq_refl) (fun r => eq_refl)
           diagnostic_world (firstn 4 ten_turns) diagnostic
           "s1" "about 3 cm" "Check the sensor spacing." sensor_reply).
  - reflexivity.
  - left. reflexivity.
  - discriminate.
  - discriminate.
  - reflexivity.
  - reflexivity.
Defined.

Lemma served_store_is_well_formed_witness :
  let w' := serve_all sample_engine put_fails "<!DOCTYPE html>"
              mixed_requests fresh_world in
  well_formed_store w'
  /\ Nat.even (List.length (parse_history (stored_history w'))) = true.
Proof.
  apply (served_store_is_well_formed sample_engine put_fails
           "<!DOCTYPE html>" mixed_requests fresh_world).
  - reflexivity.
  - reflexivity.
Defined.

Lemma Worker_fetch_only_chat_writes_witness :
  same_store solved_world
    (snd (Worker_fetch sample_engine (echo_env sensor_reply)
            "<!DOCTYPE html>" (history_request "s1") solved_world)).
Proof.
  apply (Worker_fetch_only_chat_writes sample_engine
           (echo_env sensor_reply) "<!DOCTYPE html>").
  right. discriminate.
Defined.

Lemma history_sessionId_of_path_witness :
  history_sessionId (history_request "session_1700000000000_k3j9x2m1q")
  = VStr "session_1700000000000_k3j9x2m1q".
Proof.
  apply (proj2 history_sessionId_of_path
           "session_1700000000000_k3j9x2m1q" "GET" None).
  reflexivity.
Defined.

(** An unrecognised stage at work: the name [unknown]. *)
Lemma unrecognised_stage_goes_to_solution_witness :
  DiagnosisWorkflow_run sample_engine
    {| in_sessionId := VStr "s1"; in_userMessage := VStr "hi";
       in_conversationHistory := []; in_currentStage := VStr "unknown" |}
  = Ok {| systemPrompt := VStr prompt_initial; nextStage := solution;
          out_sessionId := VStr "s1" |}
  /\ DiagnosisWorkflow_run sample_engine
       {| in_sessionId := VStr "s1"; in_userMessage := VStr "hi";
          in_conversationHistory := []; in_currentStage := VStr "initial" |}
     = Ok {| systemPrompt := VStr prompt_initial; nextStage := initial;
             out_sessionId := VStr "s1" |}.
Proof.
  destruct (unrecognised_stage_goes_to_solution sample_engine
              (VStr "unknown") (VStr "s1") "unknown" "hi" [])
    as (Hunknown & Hinitial & _).
  - reflexivity.
  - discriminate.
  - discriminate.
  - discriminate.
  - reflexivity.
  - split; [exact Hunknown | exact Hinitial].
Defined.


(** A turn of a session at [diagnostic] with four stored turns writes
    [solution]. *)
Lemma written_stage_not_behind_read_witness :
  exists next,
    "solution" = stage_label next
    /\ stage_le (stage_read (VStr "diagnostic")) next.
Proof.
  eapply (written_stage_not_behind_read sample_engine (echo_env sensor_reply)
            (chat_request (VStr "s1") (VStr "about 3 cm")) diagnostic_world
            _ _ _ (VStr "diagnostic") "about 3 cm"
            "Check the sensor spacing." "solution").
  - vm_compute. reflexivity.
  - reflexivity.
  - reflexivity.
  - vm_compute. reflexivity.
Defined.
